(** * Niche Signal Scout: the search route, the client page and the
      aggregation pipeline behind them

    The development follows the layout of the repository:

    - [JS]        values and control flow shared by both sides (strings,
                  untyped JSON, thrown values, completions);
    - [Platforms] the library [@/lib/platforms] (validator, orchestrator,
                  ranker, assembler, scoring engine);
    - [Route]     [src/app/api/search/route.ts], the [POST] handler;
    - [Page]      the client component [HomePage] with its history.

    A score in a response is the decimal number of its JSON text ([Q]);
    the arithmetic of the page is that of JavaScript, on IEEE doubles
    ([float]); the scoring engine, which needs the natural logarithm, is
    stated over [R]. *)

From Stdlib Require Import ZArith QArith Qround Qpower Reals Qreals Lqa Lra Lia.
From Stdlib Require Import List String Ascii Sorted.
From Stdlib Require Import PrimFloat.
From Stdlib Require FloatOps SpecFloat.
From stdpp Require Import base option list gmap strings fin_maps.

Set Warnings "-register-all".
Local Open Scope string_scope.
Local Open Scope list_scope.

(* ===================================================================== *)
(** ** JavaScript values and control flow *)
(* ===================================================================== *)

Module JS.

(** The white space removed by [String.prototype.trim], restricted to the
    one-byte characters a [string] holds: TAB, LF, VT, FF, CR, SP, NBSP. *)
Definition is_space (c : ascii) : bool :=
  let n := nat_of_ascii c in
  (Nat.eqb n 9 || Nat.eqb n 10 || Nat.eqb n 11 || Nat.eqb n 12
   || Nat.eqb n 13 || Nat.eqb n 32 || Nat.eqb n 160)%bool.

Fixpoint trimStart (s : string) : string :=
  match s with
  | EmptyString => EmptyString
  | String c s' => if is_space c then trimStart s' else s
  end.

Fixpoint trimEnd (s : string) : string :=
  match s with
  | EmptyString => EmptyString
  | String c s' =>
      match trimEnd s' with
      | EmptyString => if is_space c then EmptyString else String c EmptyString
      | t => String c t
      end
  end.

(** [s.trim()] *)
Definition trim (s : string) : string := trimEnd (trimStart s).

(** [!s] for a string [s]: only the empty string is falsy. *)
Definition falsy (s : string) : bool :=
  match s with EmptyString => true | _ => false end.

(** An untyped payload, as [request.json()] decodes it. *)
Inductive Json : Type :=
| JNull
| JBool (b : bool)
| JNum (q : Q)
| JStr (s : string)
| JArr (items : list Json)
| JObj (fields : list (string * Json)).

(** [payload.key]; absent on anything that is not an object with that key. *)
Fixpoint field_of (key : string) (fields : list (string * Json)) : option Json :=
  match fields with
  | [] => None
  | (k, v) :: rest => if String.eqb k key then Some v else field_of key rest
  end.

Definition get (key : string) (payload : Json) : option Json :=
  match payload with
  | JObj fields => field_of key fields
  | _ => None
  end.

(** The classes of [Error] the system distinguishes. *)
Inductive ErrorClass : Type :=
| ValidationError
| AggregationError
| InternalError
| SyntaxError
| PlainError.

(** Anything a [throw] can carry: an [Error] instance with its [message],
    or a value that is not an [Error]. *)
Inductive Thrown : Type :=
| ThrownError (cls : ErrorClass) (message : string)
| ThrownValue (v : Json).

(** The outcome of evaluating a block: a value or an abrupt [throw]. *)
Inductive Completion (A : Type) : Type :=
| Normal (a : A)
| Throw (t : Thrown).
Arguments Normal {A} a.
Arguments Throw {A} t.

(** Sequencing: the rest of a block runs only after a normal completion. *)
#[export] Instance completion_ret : MRet Completion := @Normal.
#[export] Instance completion_bind : MBind Completion :=
  fun A B (k : A -> Completion B) (c : Completion A) =>
    match c with
    | Normal a => k a
    | Throw t => Throw t
    end.

End JS.
Export JS.

(* ===================================================================== *)
(** ** JavaScript numbers *)
(* ===================================================================== *)

Module Double.

(** The double nearest to an integer. *)
Definition of_int (z : Z) : float :=
  FloatOps.SF2Prim
    (SpecFloat.binary_normalize FloatOps.prec FloatOps.emax z 0 false).

(** The double a decimal number of a JSON text decodes to: the quotient
    of numerator and denominator, rounded once when both are below 2^53,
    as for every score of up to 15 digits. *)
Definition number_of (q : Q) : float :=
  (of_int (Qnum q) / of_int (Zpos (Qden q)))%float.

(** The rational a finite double stands for; NaN and the infinities stand
    for none. *)
Definition exact (x : float) : option Q :=
  match FloatOps.Prim2SF x with
  | SpecFloat.S754_zero _ => Some 0%Q
  | SpecFloat.S754_finite s m e =>
      Some (inject_Z (if s then Zneg m else Zpos m) * 2 ^ e)%Q
  | _ => None
  end.

(** The integer nearest to [(+/-) m * 2^e] for [e < 0], a tie going up:
    the floor of the value plus one half. *)
Definition half_up (s : bool) (m : positive) (e : Z) : Z :=
  let n := if s then Zneg m else Zpos m in
  let d := (2 ^ (- e))%Z in
  ((2 * n + d) / (2 * d))%Z.

(** An integer as a double; zero keeps the sign of what was rounded. *)
Definition signed_int (s : bool) (k : Z) : float :=
  if (k =? 0)%Z then (if s then neg_zero else zero) else of_int k.

End Double.
Export Double.

(* ===================================================================== *)
(** ** The library [@/lib/platforms] *)
(* ===================================================================== *)

Module Platforms.

(** Modelled from the spec: the type declarations [PlatformId],
    [SearchRequest], [Result] and [SearchResponse] that the route and the
    page import from [@/lib/platforms]; the library file is not among the
    sources.  The fields are those of section 3 of the specification, which
    are also the ones the page reads. *)
Inductive PlatformId : Type := reddit | hackernews | devto.

#[export] Instance PlatformId_eq_dec : EqDecision PlatformId.
Proof. solve_decision. Defined.

(** Modelled from the spec: the fixed platform precedence of section
    4.5: reddit, hackernews, devto. *)
Definition precedence (p : PlatformId) : nat :=
  match p with reddit => 0 | hackernews => 1 | devto => 2 end.

(** The platform at a rank of the precedence order. *)
Definition platform_at (n : nat) : option PlatformId :=
  match n with
  | 0 => Some reddit
  | 1 => Some hackernews
  | 2 => Some devto
  | _ => None
  end.

#[export] Instance PlatformId_countable : Countable PlatformId.
Proof. refine (inj_countable precedence platform_at _); by intros []. Defined.

(** Modelled from the spec: the identifiers of the enum [PlatformId]
    of section 3, as they appear in a payload and in a result id. *)
Definition platform_name (p : PlatformId) : string :=
  match p with
  | reddit => "reddit"
  | hackernews => "hackernews"
  | devto => "devto"
  end.

(** Modelled from the spec: recognizing a platform identifier
    (section 4.1); anything else is not a [PlatformId]. *)
Definition platform_of_name (s : string) : option PlatformId :=
  if String.eqb s "reddit" then Some reddit
  else if String.eqb s "hackernews" then Some hackernews
  else if String.eqb s "devto" then Some devto
  else None.

(** Modelled from the spec: [SearchRequest] of section 3. *)
Record SearchRequest : Type := {
  query : string;
  platforms : list PlatformId
}.

(** Modelled from the spec: what an adapter hands over (section 4.2), a
    result in the common shape, not yet scored. *)
Record Normalized : Type := {
  n_id : string;
  n_platform : PlatformId;
  n_title : string;
  n_url : string;
  n_excerpt : string;
  n_author : option string;
  n_metadata : gmap string Q
}.

(** Modelled from the spec: [Result] of section 3, with the fields the
    page reads. *)
Record Result : Type := {
  result_id : string;
  platform : PlatformId;
  title : string;
  url : string;
  excerpt : string;
  author : option string;
  metadata : gmap string Q;
  score : Q
}.

(** Modelled from the spec: the [meta] of a [SearchResponse]. *)
Record Meta : Type := {
  meta_query : string;
  generatedAt : string;
  meta_platforms : list PlatformId;
  recommendedAngles : list string;
  nextPrompts : list string
}.

(** Modelled from the spec: [SearchResponse] of section 3. *)
Record SearchResponse : Type := {
  results : list Result;
  meta : Meta
}.

(** Modelled from the spec: the causes of an [AdapterError]
    (section 4.2). *)
Inductive Cause : Type :=
| timeout | rate_limited | transport | malformed_response | empty_credentials.

(** Modelled from the spec: [AdapterError{platform, cause}]. *)
Record AdapterError : Type := {
  failed_platform : PlatformId;
  cause : Cause
}.

(** Modelled from the spec: the capability [search(query)] of one
    adapter (section 4.2), with the response it gives (mocked in tests):
    a failure cause or the normalized items. *)
Definition Adapter : Type := string -> Cause + list Normalized.

(** Modelled from the spec: every way the library fails (sections 4.1,
    4.3 and 7), before it is turned into a thrown [Error]. *)
Inductive Failure : Type :=
| QueryNotAString
| QueryEmpty
| PlatformsNotAnArray
| PlatformsEmpty
| UnknownPlatform (name : Json)
| AllAdaptersFailed (failures : list AdapterError)
| Unregistered (p : PlatformId).

(** Modelled from the spec: the error taxonomy of section 7. *)
Definition failure_class (f : Failure) : ErrorClass :=
  match f with
  | AllAdaptersFailed _ => AggregationError
  | Unregistered _ => InternalError
  | _ => ValidationError
  end.

(** Modelled from the spec: the order of the Ranker (section 4.5); [a]
    goes strictly before [b] when it has the higher score or, on equal
    scores, the platform of higher precedence. *)
Definition outranks (a b : Result) : bool :=
  match (score b ?= score a)%Q with
  | Lt => true
  | Eq => (precedence (platform a) <? precedence (platform b))%nat
  | Gt => false
  end.

(** Modelled from the spec: one step of the stable sort; [x] goes behind
    the results that outrank it and in front of all others. *)
Fixpoint insert_ranked (x : Result) (l : list Result) : list Result :=
  match l with
  | [] => [x]
  | y :: l' => if outranks y x then y :: insert_ranked x l' else x :: l
  end.

(** Modelled from the spec: the Ranker of section 4.5, a stable sort by
    score descending with ties broken by platform precedence; every item
    is put in front of the later items it ties with. *)
Definition rank (l : list Result) : list Result := foldr insert_ranked [] l.

(** Modelled from the spec: the optional truncation to a maximum total
    (section 4.5), applied after ranking. *)
Definition truncate (max_total : option nat) (l : list Result) : list Result :=
  match max_total with
  | Some n => take n l
  | None => l
  end.

(** [a] may stand before [b] in a ranked sequence. *)
Definition before (a b : Result) : Prop := outranks b a = false.

(** The results that tie with each other: same score, same platform. *)
Definition tied (s : Q) (p : PlatformId) (r : Result) : bool :=
  Qeq_bool (score r) s && bool_decide (platform r = p).

(** The order of a response, given the scored results in the order the
    Orchestrator merged them (per adapter, the order of its return):
    descending by score; on equal scores by platform precedence; results
    that tie in both keep the order they had. *)
Definition in_rank_order (original ranked : list Result) : Prop :=
  StronglySorted (fun a b => (score b <= score a)%Q) ranked
  /\ StronglySorted
       (fun a b => (score a == score b)%Q ->
                   precedence (platform a) <= precedence (platform b)) ranked
  /\ forall s p,
       List.filter (tied s p) ranked `prefix_of` List.filter (tied s p) original.

(** Two outcomes of the pipeline that differ at most in [generatedAt]. *)
Definition same_but_time (c1 c2 : Completion SearchResponse) : Prop :=
  match c1, c2 with
  | Normal r1, Normal r2 =>
      results r1 = results r2
      /\ recommendedAngles (meta r1) = recommendedAngles (meta r2)
      /\ nextPrompts (meta r1) = nextPrompts (meta r2)
      /\ meta_query (meta r1) = meta_query (meta r2)
      /\ meta_platforms (meta r1) = meta_platforms (meta r2)
  | Throw t1, Throw t2 => t1 = t2
  | _, _ => False
  end.

(** Modelled from the spec: duplicates collapsed (section 3); the first
    occurrence of every platform is kept. *)
Fixpoint collapse (seen l : list PlatformId) : list PlatformId :=
  match l with
  | [] => []
  | p :: l' =>
      if bool_decide (p ∈ seen) then collapse seen l'
      else p :: collapse (p :: seen) l'
  end.

Section Pipeline.

(** The text of the message of each failure. *)
Variable describe : Failure -> string.
(** The Adapter Registry, with the responses of the adapters. *)
Variable registry : gmap PlatformId Adapter.
(** The Scoring Engine, as a function of platform and metadata. *)
Variable score_of : PlatformId -> gmap string Q -> Q.
(** The ranker's optional bound on the size of a response. *)
Variable max_total : option nat.
(** The Insight Generator: recommended angles and follow-up prompts. *)
Variable synthesize : string -> list Result -> list string * list string.

(** Modelled from the spec: a failure is thrown as an [Error] of its
    class with its message. *)
Definition fail {A : Type} (f : Failure) : Completion A :=
  Throw (ThrownError (failure_class f) (describe f)).

(** Every failure of the library is an [Error] of the class of the
    failure, with the message that describes it. *)
Definition raised (t : Thrown) : Prop :=
  exists f, t = ThrownError (failure_class f) (describe f).

(** Modelled from the spec: an element of [platforms] must be a
    recognized identifier; an unknown one fails the whole request. *)
Definition parse_platform (j : Json) : Completion PlatformId :=
  match j with
  | JStr s =>
      match platform_of_name s with
      | Some p => Normal p
      | None => fail (UnknownPlatform j)
      end
  | _ => fail (UnknownPlatform j)
  end.

(** Modelled from the spec: the Request Validator of section 4.1. *)
Definition parseSearchRequest (payload : Json) : Completion SearchRequest :=
  match get "query" payload with
  | Some (JStr raw) =>
      let q := trim raw in
      if falsy q then fail QueryEmpty
      else
        match get "platforms" payload with
        | Some (JArr items) =>
            ps ← mapM parse_platform items;
            match ps with
            | [] => fail PlatformsEmpty
            | _ => Normal {| query := q; platforms := collapse [] ps |}
            end
        | _ => fail PlatformsNotAnArray
        end
  | _ => fail QueryNotAString
  end.

(** Modelled from the spec: the registry lookup of section 4.3; an
    unregistered platform is an [InternalError]. *)
Definition lookup_adapter (p : PlatformId) : Completion (PlatformId * Adapter) :=
  match registry !! p with
  | Some a => Normal (p, a)
  | None => fail (Unregistered p)
  end.

(** The launched call of a platform. *)
Definition task_of (launched : list (PlatformId * Adapter)) (p : PlatformId)
  : option Adapter :=
  (fun hit => hit.2.2) <$> list_find (fun t => t.1 = p) launched.

(** Modelled from the spec: the concurrent fan-out of section 5.  The
    launched calls settle one at a time, in the real-time order
    [finished]; each records its outcome under its platform. *)
Definition settle (q : string) (launched : list (PlatformId * Adapter))
    (finished : list PlatformId) : gmap PlatformId (Cause + list Normalized) :=
  foldl (fun settled p =>
           match task_of launched p with
           | Some a => <[p := a q]> settled
           | None => settled
           end) ∅ finished.

(** Modelled from the spec: the join (section 4.3); a call that has not
    settled by then has run into its timeout. *)
Definition joined (settled : gmap PlatformId (Cause + list Normalized))
    (p : PlatformId) : Cause + list Normalized :=
  match settled !! p with
  | Some outcome => outcome
  | None => inl timeout
  end.

(** The recorded failure of an outcome, if it is one. *)
Definition failure_of (o : PlatformId * (Cause + list Normalized))
  : option AdapterError :=
  match o.2 with
  | inl c => Some {| failed_platform := o.1; cause := c |}
  | inr _ => None
  end.

(** The items of an outcome, if it is a success. *)
Definition success_of (o : PlatformId * (Cause + list Normalized))
  : option (list Normalized) :=
  match o.2 with
  | inl _ => None
  | inr items => Some items
  end.

(** Modelled from the spec: the Orchestrator of section 4.3: look up one
    adapter per requested platform, launch them all, join on all of them,
    merge the successes in request order. *)
Definition run (finished : list PlatformId) (req : SearchRequest)
  : Completion (list Normalized * list PlatformId) :=
  launched ← mapM lookup_adapter (platforms req);
  let settled := settle (query req) launched finished in
  let outcomes := map (fun t => (t.1, joined settled t.1)) launched in
  let failures := omap failure_of outcomes in
  let merged := concat (omap success_of outcomes) in
  match outcomes with
  | [] => Normal (merged, platforms req)
  | _ :: _ =>
      if bool_decide (length failures = length outcomes)
      then fail (AllAdaptersFailed failures)
      else Normal (merged, platforms req)
  end.

(** Modelled from the spec: scoring is centralized (section 4.2); the
    pipeline attaches the score of the Scoring Engine to each item. *)
Definition scored (n : Normalized) : Result :=
  {| result_id := n_id n;
     platform := n_platform n;
     title := n_title n;
     url := n_url n;
     excerpt := n_excerpt n;
     author := n_author n;
     metadata := n_metadata n;
     score := score_of (n_platform n) (n_metadata n) |}.

(** Modelled from the spec: the Response Assembler of section 4.7. *)
Definition assemble (q : string) (now : string) (ranked : list Result)
    (attempted : list PlatformId) (insight : list string * list string)
  : SearchResponse :=
  {| results := ranked;
     meta := {| meta_query := q;
                generatedAt := now;
                meta_platforms := attempted;
                recommendedAngles := insight.1;
                nextPrompts := insight.2 |} |}.

(** Modelled from the spec: the control flow of section 2 after the
    validator: Orchestrator, Scoring Engine, Ranker, Insight Generator,
    Response Assembler.  [finished] is the order in which the adapter
    calls settle and [now] the time of assembly. *)
Definition searchAcrossPlatforms (finished : list PlatformId) (now : string)
    (req : SearchRequest) : Completion SearchResponse :=
  gathered ← run finished req;
  let ranked := truncate max_total (rank (map scored gathered.1)) in
  Normal (assemble (query req) now ranked gathered.2
            (synthesize (query req) ranked)).

(** Modelled from the spec: the inbound contract [handle] of section 6,
    the validator followed by the rest of the pipeline. *)
Definition handle (finished : list PlatformId) (now : string)
    (payload : Json) : Completion SearchResponse :=
  req ← parseSearchRequest payload;
  searchAcrossPlatforms finished now req.

End Pipeline.

End Platforms.

(* ===================================================================== *)
(** ** [src/app/api/search/route.ts] *)
(* ===================================================================== *)

Module Route.
Import Platforms.

(** The JSON body of a response: the data, or [{ error: message }]. *)
Inductive Body : Type :=
| BodyData (data : SearchResponse)
| BodyError (error : string).

Record HttpResponse : Type := {
  body : Body;
  status : nat
}.

(** [NextResponse.json(body, { status })]; the status defaults to 200. *)
Definition NextResponse_json (b : Body) (init : option nat) : HttpResponse :=
  {| body := b; status := default 200 init |}.

(** What the handler does that can be observed from outside its return
    value: it starts the search (the only step that reaches the network)
    and it writes to the console. *)
Inductive Event : Type :=
| SearchStarted (req : SearchRequest)
| ConsoleError (error : Thrown).

(** A handler step: it extends the log of events and completes normally or
    abruptly. *)
Definition Eff (A : Type) : Type := list Event -> Completion A * list Event.

#[export] Instance eff_ret : MRet Eff := fun A a log => (Normal a, log).

#[export] Instance eff_bind : MBind Eff :=
  fun A B (k : A -> Eff B) (m : Eff A) log =>
    match m log with
    | (Normal a, log') => k a log'
    | (Throw t, log') => (Throw t, log')
    end.

Definition emit (e : Event) : Eff unit := fun log => (Normal tt, log ++ [e]).

Definition lift {A : Type} (c : Completion A) : Eff A := fun log => (c, log).

(** [try { block } catch (error) { handler }] *)
Definition try_catch {A : Type} (block : Eff A) (handler : Thrown -> Eff A)
  : Eff A :=
  fun log =>
    match block log with
    | (Normal a, log') => (Normal a, log')
    | (Throw t, log') => handler t log'
    end.

Section Handler.

(** The two imports of the route.  The search is given with the outcome
    it has in the world the handler runs in. *)
Variable parseSearchRequest : Json -> Completion SearchRequest.
Variable searchAcrossPlatforms : SearchRequest -> Completion SearchResponse.

(** The [try] block of [POST]; [request_json] is the outcome of
    [await request.json()]. *)
Definition attempt (request_json : Completion Json) : Eff HttpResponse :=
  payload ← lift request_json;
  req ← lift (parseSearchRequest payload);
  data ← (emit (SearchStarted req);;
          lift (searchAcrossPlatforms
                  {| query := query req; platforms := platforms req |}));
  mret (NextResponse_json (BodyData data) None).

(** [error instanceof Error ? error.message : 'Unknown error'] *)
Definition message_of (error : Thrown) : string :=
  match error with
  | ThrownError _ message => message
  | ThrownValue _ => "Unknown error"
  end.

(** The [catch] block of [POST]. *)
Definition recover (error : Thrown) : Eff HttpResponse :=
  emit (ConsoleError error);;
  mret (NextResponse_json (BodyError (message_of error)) (Some 400)).

Definition POST (request_json : Completion Json) : Eff HttpResponse :=
  try_catch (attempt request_json) recover.

End Handler.

(** HTTP status classes. *)
Definition client_error (s : nat) : Prop := 400 <= s < 500.
Definition server_error (s : nat) : Prop := 500 <= s < 600.

(** The boundary contract as section 6 of the specification words it:
    the status tells validation failures (client error) from all other
    failures (server error). *)
Definition status_by_failure_class
    (parse : Json -> Completion SearchRequest)
    (search : SearchRequest -> Completion SearchResponse) : Prop :=
  forall payload t l resp,
    attempt parse search (Normal payload) [] = (Throw t, l) ->
    (POST parse search (Normal payload) []).1 = Normal resp ->
    match t with
    | ThrownError ValidationError _ => client_error (status resp)
    | _ => server_error (status resp)
    end.

(** The reporting contract as section 7 of the specification words it:
    every failure is answered with a non-empty message taken from the
    thrown error. *)
Definition reports_readable_message
    (parse : Json -> Completion SearchRequest)
    (search : SearchRequest -> Completion SearchResponse) : Prop :=
  forall payload t l resp,
    attempt parse search (Normal payload) [] = (Throw t, l) ->
    (POST parse search (Normal payload) []).1 = Normal resp ->
    exists cls message,
      t = ThrownError cls message
      /\ message <> ""
      /\ body resp = BodyError message.

End Route.

(* ===================================================================== *)
(** ** The client page [HomePage] *)
(* ===================================================================== *)

Module Page.
Import Platforms.

Record HistoryEntry : Type := {
  entry_query : string;
  timestamp : string;
  entry_platforms : list PlatformId;
  summary : Meta
}.

(** The [useState] cells of the component. *)
Record State : Type := {
  st_query : string;
  selectedPlatforms : list PlatformId;
  data : option SearchResponse;
  history : list HistoryEntry;
  error : option string;
  loading : bool
}.

Definition setQuery (v : string) (st : State) : State :=
  {| st_query := v; selectedPlatforms := selectedPlatforms st;
     data := data st; history := history st; error := error st;
     loading := loading st |}.

Definition setSelectedPlatforms (v : list PlatformId) (st : State) : State :=
  {| st_query := st_query st; selectedPlatforms := v;
     data := data st; history := history st; error := error st;
     loading := loading st |}.

Definition setData (v : option SearchResponse) (st : State) : State :=
  {| st_query := st_query st; selectedPlatforms := selectedPlatforms st;
     data := v; history := history st; error := error st;
     loading := loading st |}.

Definition setHistory (v : list HistoryEntry) (st : State) : State :=
  {| st_query := st_query st; selectedPlatforms := selectedPlatforms st;
     data := data st; history := v; error := error st;
     loading := loading st |}.

Definition setError (v : option string) (st : State) : State :=
  {| st_query := st_query st; selectedPlatforms := selectedPlatforms st;
     data := data st; history := history st; error := v;
     loading := loading st |}.

Definition setLoading (v : bool) (st : State) : State :=
  {| st_query := st_query st; selectedPlatforms := selectedPlatforms st;
     data := data st; history := history st; error := error st;
     loading := v |}.

(** The item under [STORAGE_KEY]: the empty text, a text [JSON.parse]
    rejects, or the encoding of a list of entries (the only JSON the
    component's cast [as HistoryEntry[]] accounts for). *)
Inductive Item : Type :=
| ItemEmpty
| ItemInvalid (raw : string)
| ItemHistory (entries : list HistoryEntry).

(** What the page does to its environment. *)
Inductive Effect : Type :=
| GetItem
| SetItem (entries : list HistoryEntry)
| RemoveItem
| Fetch (q : string) (ps : list PlatformId).

(** The browser as the page sees it: the item in [localStorage] and the
    log of the calls made so far. *)
Record Browser : Type := {
  storage : option Item;
  log : list Effect
}.

Definition getItem (w : Browser) : option Item * Browser :=
  (storage w, {| storage := storage w; log := log w ++ [GetItem] |}).

Definition setItem (entries : list HistoryEntry) (w : Browser) : Browser :=
  {| storage := Some (ItemHistory entries); log := log w ++ [SetItem entries] |}.

Definition removeItem (w : Browser) : Browser :=
  {| storage := None; log := log w ++ [RemoveItem] |}.

Definition fetch (q : string) (ps : list PlatformId) (w : Browser) : Browser :=
  {| storage := storage w; log := log w ++ [Fetch q ps] |}.

(** The first effect (dependencies [[]]): read the stored history.  It
    returns the argument of the [setHistory] call it makes, if any. *)
Definition loadHistory (w : Browser) : option (list HistoryEntry) * Browser :=
  let (raw, w1) := getItem w in
  match raw with
  | None => (None, w1)
  | Some ItemEmpty => (None, w1)
  | Some (ItemHistory parsed) => (Some parsed, w1)
  | Some (ItemInvalid _) => (None, removeItem w1)
  end.

(** The second effect (dependencies [[history]]):
    [setItem(STORAGE_KEY, JSON.stringify(history.slice(0, 8)))]. *)
Definition saveHistory (h : list HistoryEntry) (w : Browser) : Browser :=
  setItem (take 8 h) w.

(** How a [fetch] of [/api/search] can settle. *)
Inductive Reply : Type :=
| FetchRejected (err : Thrown)
| NotOk (payload_error : option string)
| OkUndecodable (err : Thrown)
| Ok (payload : SearchResponse).

(** [err instanceof Error ? err.message : 'Unexpected failure.'] *)
Definition failure_message (err : Thrown) : string :=
  match err with
  | ThrownError _ message => message
  | ThrownValue _ => "Unexpected failure."
  end.

Definition entry_of (payload : SearchResponse) : HistoryEntry :=
  {| entry_query := meta_query (meta payload);
     timestamp := generatedAt (meta payload);
     entry_platforms := meta_platforms (meta payload);
     summary := meta payload |}.

(** [prev.filter((item) => item.query !== payload.meta.query)] *)
Definition others (q : string) (prev : list HistoryEntry) : list HistoryEntry :=
  List.filter (fun item => negb (String.eqb (entry_query item) q)) prev.

(** [handleSubmit] up to its [await fetch(...)]: the new state and the
    request issued, if any. *)
Definition handleSubmit (st : State) (w : Browser) : State * Browser :=
  if falsy (trim (st_query st))
  then (setError (Some "Enter a topic to scout for signals.") st, w)
  else
    match selectedPlatforms st with
    | [] => (setError (Some "Select at least one platform.") st, w)
    | _ :: _ =>
        (setLoading true (setError None st),
         fetch (trim (st_query st)) (selectedPlatforms st) w)
    end.

(** [handleSubmit] from the moment its [fetch] settles. *)
Definition handleSubmit_settled (reply : Reply) (st : State) : State :=
  let st' :=
    match reply with
    | FetchRejected err => setError (Some (failure_message err)) st
    | NotOk payload_error =>
        setError (Some (default "Agent failed to scout signals." payload_error)) st
    | OkUndecodable err => setError (Some (failure_message err)) st
    | Ok payload =>
        let st1 := setData (Some payload) st in
        setHistory (entry_of payload
                      :: others (meta_query (meta payload)) (history st1)) st1
    end in
  setLoading false st'.

Definition togglePlatform (p : PlatformId) (st : State) : State :=
  setSelectedPlatforms
    (if bool_decide (p ∈ selectedPlatforms st)
     then List.filter (fun item => negb (bool_decide (item = p))) (selectedPlatforms st)
     else selectedPlatforms st ++ [p])
    st.

Definition reuseSearch (entry : HistoryEntry) (st : State) : State :=
  setSelectedPlatforms (entry_platforms entry) (setQuery (entry_query entry) st).

(** [Math.round]: the integer nearest to a double, a tie going up; a
    double that is an integer, a zero, NaN or infinite is returned as it
    is. *)
Definition Math_round (x : float) : float :=
  match FloatOps.Prim2SF x with
  | SpecFloat.S754_finite s m e =>
      if (e <? 0)%Z then signed_int s (half_up s m e) else x
  | _ => x
  end.

Definition engagementScore (d : option SearchResponse) : float :=
  match d with
  | None => 0%float
  | Some d =>
      match results d with
      | [] => 0%float
      | _ :: _ =>
          let total :=
            foldl (fun sum item => sum + number_of (score item))%float
              0%float (results d) in
          (Math_round (total / of_int (Z.of_nat (length (results d))) * 10)
           / 10)%float
      end
  end.

(** The arithmetic mean of a sequence of numbers. *)
Definition mean (xs : list Q) : Q :=
  (fold_right Qplus 0 xs / inject_Z (Z.of_nat (length xs)))%Q.

(** [r] is [x] rounded to one decimal place: a whole number of tenths,
    nearest to [x], a tie going up. *)
Definition rounds_to_one_decimal (x r : Q) : Prop :=
  exists k : Z,
    (r == inject_Z k / 10)%Q /\ (x - (1 # 20) < r)%Q /\ (r <= x + (1 # 20))%Q.

(** The average as the claim words it: the arithmetic mean of the scores
    rounded to one decimal place, [k] tenths, shown as the double that
    number decodes to. *)
Definition shows_rounded_mean (d : SearchResponse) : Prop :=
  exists k : Z,
    rounds_to_one_decimal (mean (map score (results d))) (k # 10)
    /\ engagementScore (Some d) = number_of (k # 10).

(** The number of reads of the stored history in a log. *)
Definition reads (l : list Effect) : nat :=
  length (List.filter (fun e => match e with GetItem => true | _ => false end) l).

(** The number of requests sent in a log. *)
Definition requests (l : list Effect) : nat :=
  length (List.filter (fun e => match e with Fetch _ _ => true | _ => false end) l).

(** Every list the log shows as saved has at most [n] entries. *)
Definition saves_within (n : nat) (l : list Effect) : Prop :=
  Forall (fun e => match e with
                   | SetItem entries => length entries <= n
                   | _ => True
                   end) l.

Section Component.

(** The ids of the constant [PLATFORMS] of the library. *)
Variable PLATFORMS : list PlatformId.

Definition initial : State :=
  {| st_query := "climate-positive fintech for Gen Z investors";
     selectedPlatforms := PLATFORMS;
     data := None;
     history := [];
     error := None;
     loading := false |}.

(** Mounting: the first render, then both effects in order; a
    [setHistory] made by the first one causes a second render, after
    which the save effect runs again. *)
Definition mount (w : Browser) : State * Browser :=
  let (pending, w1) := loadHistory w in
  let w2 := saveHistory (history initial) w1 in
  match pending with
  | None => (initial, w2)
  | Some parsed =>
      let st := setHistory parsed initial in
      (st, saveHistory (history st) w2)
  end.

(** What can happen to a mounted page. *)
Inductive Action : Type :=
| TypeQuery (text : string)
| TogglePlatform (p : PlatformId)
| Submit
| Settled (reply : Reply)
| ReuseSearch (entry : HistoryEntry).

(** One action, followed by the effects of the render it causes: the
    save effect runs when [setHistory] was called. *)
Definition step (sw : State * Browser) (a : Action) : State * Browser :=
  let (st, w) := sw in
  match a with
  | TypeQuery text => (setQuery text st, w)
  | TogglePlatform p => (togglePlatform p st, w)
  | Submit => handleSubmit st w
  | Settled reply =>
      let st' := handleSubmit_settled reply st in
      match reply with
      | Ok _ => (st', saveHistory (history st') w)
      | _ => (st', w)
      end
  | ReuseSearch entry => (reuseSearch entry st, w)
  end.

(** A visit of the page: it is mounted in a browser that holds [stored],
    then the actions happen. *)
Definition visit (stored : option Item) (actions : list Action) : State * Browser :=
  foldl step (mount {| storage := stored; log := [] |}) actions.

(** The history lifecycle: the stored history has been read once, as
    the first thing the page did, every save was of at most 8 entries,
    and what is stored is the first 8 entries of the history state. *)
Definition lifecycle (sw : State * Browser) : Prop :=
  reads (log sw.2) = 1
  /\ head (log sw.2) = Some GetItem
  /\ saves_within 8 (log sw.2)
  /\ exists saved,
       storage sw.2 = Some (ItemHistory saved)
       /\ saved = take 8 (history sw.1)
       /\ length saved <= 8.

End Component.

End Page.

(* ===================================================================== *)
(** ** The Scoring Engine *)
(* ===================================================================== *)

Module Scoring.
Import Platforms.

(** Modelled from the spec: the primary engagement metric of each
    platform (section 4.4). *)
Definition primary_metric (p : PlatformId) : string :=
  match p with
  | reddit => "upvotes"
  | hackernews => "points"
  | devto => "reactions"
  end.

(** Modelled from the spec: the secondary metric, [comments] on every
    platform. *)
Definition secondary_metric (p : PlatformId) : string := "comments".

(** Modelled from the spec: a metric read from the metadata; an absent
    key counts as 0 and a negative value is clamped to 0. *)
Definition metric (md : gmap string Q) (key : string) : R :=
  match md !! key with
  | Some v => Rmax 0 (Q2R v)
  | None => 0%R
  end.

(** Modelled from the spec: rounding, to the nearest integer, a tie
    going up. *)
Definition nearest (x : R) : Z := Int_part (x + / 2).

Section Engine.

(** The platform-specific weights and normalization constants. *)
Variable primary_weight secondary_weight normalization : PlatformId -> R.

(** Modelled from the spec: the weighted sum of the two metrics. *)
Definition combined (p : PlatformId) (md : gmap string Q) : R :=
  (primary_weight p * metric md (primary_metric p)
   + secondary_weight p * metric md (secondary_metric p))%R.

(** Modelled from the spec: the diminishing-returns transform,
    natural-log-of-one-plus-value. *)
Definition transformed (p : PlatformId) (md : gmap string Q) : R :=
  ln (1 + combined p md).

(** Modelled from the spec: scaling by the normalization constant of
    the platform. *)
Definition scaled (p : PlatformId) (md : gmap string Q) : R :=
  (normalization p * transformed p md)%R.

(** Modelled from the spec: rounding to one decimal place; the score
    counted in tenths. *)
Definition score_tenths (p : PlatformId) (md : gmap string Q) : Z :=
  nearest (scaled p md * 10).

(** Modelled from the spec: the Scoring Engine of section 4.4: weighted
    sum of the two metrics, natural logarithm of one plus the sum, scaling
    by the normalization constant, rounding to one decimal place. *)
Definition score (p : PlatformId) (md : gmap string Q) : R :=
  (IZR (score_tenths p md) / 10)%R.

(** Modelled from the spec: the same score as the number a [Result]
    carries. *)
Definition score_of (p : PlatformId) (md : gmap string Q) : Q :=
  (inject_Z (score_tenths p md) / 10)%Q.

End Engine.

End Scoring.

(* ===================================================================== *)
(** ** Test data *)
(* ===================================================================== *)

Module Fixtures.
Import Platforms.

Definition describe (f : Failure) : string :=
  match f with
  | QueryNotAString => "query must be a string"
  | QueryEmpty => "query must not be empty"
  | PlatformsNotAnArray => "platforms must be an array"
  | PlatformsEmpty => "select at least one platform"
  | UnknownPlatform _ => "unknown platform"
  | AllAdaptersFailed _ => "every platform failed"
  | Unregistered _ => "no adapter registered"
  end.

Definition post (p : PlatformId) (native_id : string) (md : gmap string Q)
  : Normalized :=
  {| n_id := platform_name p +:+ ":" +:+ native_id;
     n_platform := p;
     n_title := "title " +:+ native_id;
     n_url := "https://example.org/" +:+ native_id;
     n_excerpt := "excerpt";
     n_author := None;
     n_metadata := md |}.

(** reddit returns three posts, hackernews times out, devto returns one. *)
Definition registry_partial : gmap PlatformId Adapter :=
  <[reddit := fun _ =>
      inr [post reddit "a" {[ "upvotes" := 3%Q ]};
           post reddit "b" {[ "upvotes" := 5%Q ]};
           post reddit "c" {[ "upvotes" := 3%Q ]}]]>
  (<[hackernews := fun _ => inl timeout]>
  (<[devto := fun _ => inr [post devto "d" {[ "reactions" := 5%Q ]}]]> ∅)).

(** All three adapters fail. *)
Definition registry_down : gmap PlatformId Adapter :=
  <[reddit := fun _ => inl rate_limited]>
  (<[hackernews := fun _ => inl timeout]>
  (<[devto := fun _ => inl transport]> ∅)).

(** A scoring function that can be evaluated: the primary metric. *)
Definition score_primary (p : PlatformId) (md : gmap string Q) : Q :=
  default 0%Q (md !! Scoring.primary_metric p).

Definition synthesize (q : string) (ranked : list Result)
  : list string * list string :=
  (["underserved segment of " +:+ q; "pricing objection to " +:+ q;
    "adjacent niche of " +:+ q],
   ["Who talks about " +:+ q +:+ "?"; "What blocks " +:+ q +:+ "?";
    "Where is " +:+ q +:+ " missing?"]).

Definition payload_good : Json :=
  JObj [("query", JStr "  ai agents  ");
        ("platforms", JArr [JStr "devto"; JStr "reddit"; JStr "reddit";
                            JStr "hackernews"])].

Definition payload_no_query : Json :=
  JObj [("query", JStr ""); ("platforms", JArr [JStr "reddit"])].

Definition parse : Json -> Completion SearchRequest :=
  parseSearchRequest describe.

(** A validator that throws its errors without a text, as [new Error()]
    does. *)
Definition parse_silent : Json -> Completion SearchRequest :=
  parseSearchRequest (fun _ => "").

Definition search (registry : gmap PlatformId Adapter)
  : SearchRequest -> Completion SearchResponse :=
  searchAcrossPlatforms describe registry score_primary None synthesize
    [hackernews; reddit; devto] "2024-05-01T10:00:00.000Z".

End Fixtures.

(* ===================================================================== *)
(** ** Vocabulary for the properties of the route and the page *)
(* ===================================================================== *)

Module Text.

(** A string made of white space only (the empty string included). *)
Fixpoint blank (s : string) : bool :=
  match s with
  | EmptyString => true
  | String c s' => is_space c && blank s'
  end.

(** The string starts with a white-space character. *)
Definition leading_space (s : string) : bool :=
  match s with
  | EmptyString => false
  | String c _ => is_space c
  end.

(** The string ends with a white-space character. *)
Fixpoint trailing_space (s : string) : bool :=
  match s with
  | EmptyString => false
  | String c EmptyString => is_space c
  | String _ s' => trailing_space s'
  end.

End Text.

Module Counting.
Import Platforms Page.

(** The number of saves of the history in a log. *)
Definition saves (l : list Effect) : nat :=
  length (List.filter (fun e => match e with SetItem _ => true | _ => false end) l).

(** The number of removals of the stored item in a log. *)
Definition removals (l : list Effect) : nat :=
  length (List.filter (fun e => match e with RemoveItem => true | _ => false end) l).

(** The number of searches that came back with data among the actions. *)
Definition successes (actions : list Action) : nat :=
  length (List.filter (fun a => match a with Settled (Ok _) => true | _ => false end)
            actions).

(** The number of times the form was submitted among the actions. *)
Definition submits (actions : list Action) : nat :=
  length (List.filter (fun a => match a with Submit => true | _ => false end)
            actions).

(** The number of searches started in a log of the route. *)
Definition searches (l : list Route.Event) : nat :=
  length (List.filter (fun e => match e with
                                | Route.SearchStarted _ => true
                                | _ => false
                                end) l).

End Counting.

Module Exchange.
Import Platforms Route Page.

(** [JSON.stringify({ query, platforms })] as the route decodes it. *)
Definition request_body (q : string) (ps : list PlatformId) : Json :=
  JObj [("query", JStr q);
        ("platforms", JArr (map (fun p => JStr (platform_name p)) ps))].

(** [response.ok]: the status is in the range 200 to 299. *)
Definition response_ok (r : HttpResponse) : bool :=
  (200 <=? status r)%nat && (status r <=? 299)%nat.

(** How the page sees a response of the route: with [response.ok] it
    takes the body for the data; otherwise it reads the [error] field of
    the body, which a data body does not have.  A body [{ error }] under
    an ok status is not a [SearchResponse] and has no reading here. *)
Definition reply_of (r : HttpResponse) : option Reply :=
  match body r, response_ok r with
  | BodyData d, true => Some (Ok d)
  | BodyData _, false => Some (NotOk None)
  | BodyError e, false => Some (NotOk (Some e))
  | BodyError _, true => None
  end.

Section Served.

Variable parseSearchRequest : Json -> Completion SearchRequest.
Variable searchAcrossPlatforms : SearchRequest -> Completion SearchResponse.

(** The request of the page answered by [POST], as the page reads the
    answer. *)
Definition answer (q : string) (ps : list PlatformId) : option Reply :=
  match (POST parseSearchRequest searchAcrossPlatforms
           (Normal (request_body q ps)) []).1 with
  | Normal resp => reply_of resp
  | Throw _ => None
  end.

(** A submission of the form carried through: the guard, the request
    answered by the route, and the handler resumed with the answer. *)
Definition submit_and_settle (st : State) (w : Browser) : State * Browser :=
  let (st1, w1) := handleSubmit st w in
  if falsy (trim (st_query st)) then (st1, w1)
  else
    match selectedPlatforms st with
    | [] => (st1, w1)
    | _ :: _ =>
        match answer (trim (st_query st)) (selectedPlatforms st) with
        | Some reply =>
            let st2 := handleSubmit_settled reply st1 in
            match reply with
            | Ok _ => (st2, saveHistory (history st2) w1)
            | _ => (st2, w1)
            end
        | None => (st1, w1)
        end
    end.

End Served.

End Exchange.

(* ===================================================================== *)
(** * Properties *)
(* ===================================================================== *)

(** ** The ranker *)

Module RankerFacts.
Import Platforms.

Lemma before_spec (a b : Result) :
  before a b <->
  (score b <= score a)%Q
  /\ ((score a == score b)%Q ->
      precedence (platform a) <= precedence (platform b)).
Proof.
  unfold before, outranks.
  destruct (score a ?= score b)%Q eqn:E.
  - apply Qeq_alt in E. rewrite Nat.ltb_ge. split.
    + intros H. split; [rewrite E; apply Qle_refl | auto].
    + intros [_ H]. auto.
  - apply Qlt_alt in E. split; [discriminate|].
    intros [H _]. exfalso. exact (Qlt_not_le _ _ E H).
  - apply Qgt_alt in E. split; [|reflexivity].
    intros _. split; [apply Qlt_le_weak; exact E|].
    intros H. rewrite H in E. exfalso. exact (Qlt_irrefl _ E).
Qed.

Lemma before_trans (a b c : Result) : before a b -> before b c -> before a c.
Proof.
  rewrite !before_spec. intros [Hab Tab] [Hbc Tbc]. split.
  - eapply Qle_trans; eassumption.
  - intros Hac.
    assert (Eab : (score a == score b)%Q).
    { apply Qle_antisym; [rewrite Hac|]; assumption. }
    assert (Ebc : (score b == score c)%Q) by (rewrite <- Eab; exact Hac).
    specialize (Tab Eab). specialize (Tbc Ebc). lia.
Qed.

Lemma outranks_before (a b : Result) : outranks a b = true -> before a b.
Proof.
  unfold before, outranks. rewrite <- (Qcompare_antisym (score b) (score a)).
  destruct (score b ?= score a)%Q; simpl; try discriminate; [|reflexivity].
  rewrite Nat.ltb_lt, Nat.ltb_ge. lia.
Qed.

Lemma tied_not_outranks (s : Q) (p : PlatformId) (a b : Result) :
  tied s p a = true -> tied s p b = true -> outranks a b = false.
Proof.
  unfold tied. rewrite !andb_true_iff, !bool_decide_eq_true.
  intros [Ha Pa] [Hb Pb]. apply Qeq_bool_iff in Ha, Hb.
  unfold outranks.
  assert (E : (score b ?= score a)%Q = Eq).
  { apply Qeq_alt. rewrite Ha, Hb. reflexivity. }
  rewrite E, Pa, Pb. apply Nat.ltb_irrefl.
Qed.

Lemma insert_ranked_Forall (P : Result -> Prop) (x : Result) (l : list Result) :
  P x -> Forall P l -> Forall P (insert_ranked x l).
Proof.
  intros Hx. induction 1 as [|y l Hy Hl IH]; simpl.
  - repeat constructor; assumption.
  - destruct (outranks y x); repeat constructor; assumption.
Qed.

Lemma insert_ranked_sorted (x : Result) (l : list Result) :
  StronglySorted before l -> StronglySorted before (insert_ranked x l).
Proof.
  induction 1 as [|y l Hl IH Hy]; simpl.
  - repeat constructor.
  - destruct (outranks y x) eqn:E.
    + constructor; [exact IH|].
      apply insert_ranked_Forall; [apply outranks_before; exact E | exact Hy].
    + constructor; [constructor; assumption|].
      constructor; [exact E|].
      eapply Forall_impl; [exact Hy|].
      intros z Hz. eapply before_trans; [exact E | exact Hz].
Qed.

Lemma rank_sorted (l : list Result) : StronglySorted before (rank l).
Proof.
  induction l as [|x l IH]; simpl; [constructor|].
  apply insert_ranked_sorted, IH.
Qed.

Lemma insert_ranked_filter (s : Q) (p : PlatformId) (x : Result)
    (l : list Result) :
  List.filter (tied s p) (insert_ranked x l) = List.filter (tied s p) (x :: l).
Proof.
  induction l as [|y l IH]; [reflexivity|].
  simpl insert_ranked. destruct (outranks y x) eqn:E; [|reflexivity].
  simpl. rewrite IH. simpl.
  destruct (tied s p x) eqn:Hx, (tied s p y) eqn:Hy; try reflexivity.
  rewrite (tied_not_outranks s p y x Hy Hx) in E. discriminate.
Qed.

(** The sort is stable: results that tie keep their order. *)
Lemma rank_stable (s : Q) (p : PlatformId) (l : list Result) :
  List.filter (tied s p) (rank l) = List.filter (tied s p) l.
Proof.
  induction l as [|x l IH]; [reflexivity|].
  simpl rank. rewrite insert_ranked_filter. simpl. rewrite IH. reflexivity.
Qed.

Lemma insert_ranked_perm (x : Result) (l : list Result) :
  insert_ranked x l ≡ₚ x :: l.
Proof.
  induction l as [|y l IH]; simpl; [reflexivity|].
  destruct (outranks y x); [|reflexivity].
  rewrite IH. apply Permutation_swap.
Qed.

(** Ranking neither drops nor invents a result. *)
Lemma rank_perm (l : list Result) : rank l ≡ₚ l.
Proof.
  induction l as [|x l IH]; simpl; [reflexivity|].
  rewrite insert_ranked_perm, IH. reflexivity.
Qed.

Lemma StronglySorted_take {A : Type} (R : A -> A -> Prop) (n : nat)
    (l : list A) :
  StronglySorted R l -> StronglySorted R (take n l).
Proof.
  intros H. revert n. induction H as [|x l Hl IH Hx]; intros [|n]; simpl;
    try constructor; [apply IH|].
  apply Forall_take. exact Hx.
Qed.

Lemma StronglySorted_weaken {A : Type} (R S : A -> A -> Prop) (l : list A) :
  (forall a b, R a b -> S a b) -> StronglySorted R l -> StronglySorted S l.
Proof.
  intros HRS. induction 1 as [|x l Hl IH Hx]; constructor; [exact IH|].
  eapply Forall_impl; [exact Hx | auto].
Qed.

Lemma filter_take_prefix {A : Type} (f : A -> bool) (n : nat) (l : list A) :
  List.filter f (take n l) `prefix_of` List.filter f l.
Proof.
  exists (List.filter f (drop n l)).
  rewrite <- List.filter_app, take_drop. reflexivity.
Qed.

Lemma truncate_rank_order (max_total : option nat) (l : list Result) :
  in_rank_order l (truncate max_total (rank l)).
Proof.
  assert (S : StronglySorted before (truncate max_total (rank l))).
  { destruct max_total; simpl; [apply StronglySorted_take|]; apply rank_sorted. }
  split; [|split].
  - eapply StronglySorted_weaken; [|exact S].
    intros a b H. apply before_spec in H. tauto.
  - eapply StronglySorted_weaken; [|exact S].
    intros a b H. apply before_spec in H. tauto.
  - intros s p. rewrite <- (rank_stable s p l).
    destruct max_total; simpl; [apply filter_take_prefix | reflexivity].
Qed.

End RankerFacts.

(** ** The pipeline *)

Module PipelineFacts.
Import Platforms RankerFacts.

Section Pipeline.

Variable describe : Failure -> string.
Variable registry : gmap PlatformId Adapter.
Variable score_of : PlatformId -> gmap string Q -> Q.
Variable max_total : option nat.
Variable synthesize : string -> list Result -> list string * list string.

Local Abbreviation run := (run describe registry).
Local Abbreviation search := (searchAcrossPlatforms describe registry score_of max_total synthesize).
Local Abbreviation handle := (handle describe registry score_of max_total synthesize).

(** *** What the library throws *)

Local Abbreviation raised := (raised describe).

Lemma fail_raised {A : Type} (f : Failure) (t : Thrown) :
  @fail describe A f = Throw t -> raised t.
Proof. intros [= <-]. exists f. reflexivity. Qed.

Lemma mapM_raised {A B : Type} (g : A -> Completion B) (l : list A)
    (t : Thrown) :
  (forall x t', g x = Throw t' -> raised t') ->
  mapM g l = Throw t -> raised t.
Proof.
  intros Hg. induction l as [|x l IH]; simpl; [discriminate|].
  unfold mbind, completion_bind at 1.
  destruct (g x) as [y|t'] eqn:E.
  - unfold mbind, completion_bind at 1. 
    destruct (mapM g l) as [k|t'']; [discriminate|].
    intros [= <-]. apply IH. reflexivity.
  - intros [= <-]. eapply Hg, E.
Qed.

Lemma parse_platform_raised (j : Json) (t : Thrown) :
  parse_platform describe j = Throw t -> raised t.
Proof.
  unfold parse_platform.
  destruct j; try apply fail_raised.
  destruct (platform_of_name s); [discriminate | apply fail_raised].
Qed.

Lemma parseSearchRequest_raised (payload : Json) (t : Thrown) :
  parseSearchRequest describe payload = Throw t -> raised t.
Proof.
  unfold parseSearchRequest.
  destruct (get "query" payload) as [[]|]; try apply fail_raised.
  destruct (falsy (trim s)); [apply fail_raised|].
  destruct (get "platforms" payload) as [[]|]; try apply fail_raised.
  unfold mbind, completion_bind.
  destruct (mapM (parse_platform describe) items) as [ps|t'] eqn:E.
  - destruct ps; [apply fail_raised | discriminate].
  - intros [= <-]. eapply mapM_raised; [|exact E].
    apply parse_platform_raised.
Qed.

Lemma lookup_adapter_raised (p : PlatformId) (t : Thrown) :
  lookup_adapter describe registry p = Throw t -> raised t.
Proof.
  unfold lookup_adapter.
  destruct (registry !! p); [discriminate | apply fail_raised].
Qed.

Lemma run_raised (finished : list PlatformId) (req : SearchRequest)
    (t : Thrown) :
  run finished req = Throw t -> raised t.
Proof.
  unfold Platforms.run, mbind, completion_bind.
  destruct (mapM _ (platforms req)) as [launched|t'] eqn:E.
  - destruct (map _ launched); [discriminate|].
    case_bool_decide; [apply fail_raised | discriminate].
  - intros [= <-]. eapply mapM_raised; [|exact E].
    apply lookup_adapter_raised.
Qed.

Lemma search_raised (finished : list PlatformId) (now : string)
    (req : SearchRequest) (t : Thrown) :
  search finished now req = Throw t -> raised t.
Proof.
  unfold searchAcrossPlatforms, mbind, completion_bind.
  destruct (run finished req) as [g|t'] eqn:E; [discriminate|].
  intros [= <-]. eapply run_raised, E.
Qed.

Lemma handle_raised (finished : list PlatformId) (now : string)
    (payload : Json) (t : Thrown) :
  handle finished now payload = Throw t -> raised t.
Proof.
  unfold Platforms.handle, mbind, completion_bind.
  destruct (parseSearchRequest describe payload) as [req|t'] eqn:E.
  - apply search_raised.
  - intros [= <-]. eapply parseSearchRequest_raised, E.
Qed.

(** *** The order of a response *)

Lemma search_results (finished : list PlatformId) (now : string)
    (req : SearchRequest) (resp : SearchResponse) :
  search finished now req = Normal resp ->
  exists merged attempted,
    run finished req = Normal (merged, attempted)
    /\ results resp = truncate max_total (rank (map (scored score_of) merged)).
Proof.
  unfold searchAcrossPlatforms, mbind, completion_bind.
  destruct (run finished req) as [[merged attempted]|t]; [|discriminate].
  intros [= <-]. exists merged, attempted. split; reflexivity.
Qed.

(** C3: for every request the pipeline answers, the results of the
    response are sorted by score descending; results with equal score
    follow the platform precedence reddit, hackernews, devto; and results
    that tie on both keep the order in which the Orchestrator merged the
    adapters' returns.  (Spec-modelled Orchestrator and Ranker.) *)
Theorem response_in_rank_order (finished : list PlatformId) (now : string)
    (req : SearchRequest) (resp : SearchResponse) :
  search finished now req = Normal resp ->
  exists merged attempted,
    run finished req = Normal (merged, attempted)
    /\ in_rank_order (map (scored score_of) merged) (results resp).
Proof.
  intros H. destruct (search_results _ _ _ _ H) as (merged & attempted & Hrun & ->).
  exists merged, attempted. split; [exact Hrun|].
  apply truncate_rank_order.
Qed.

(** *** Independence of the order in which the calls settle *)

Lemma settle_lookup (q : string) (launched : list (PlatformId * Adapter))
    (finished : list PlatformId) (p : PlatformId) :
  settle q launched finished !! p =
  if decide (p ∈ finished) then (fun a => a q) <$> task_of launched p else None.
Proof.
  unfold settle.
  set (f := fun settled p0 => match task_of launched p0 with
                              | Some a => <[p0:=a q]> settled
                              | None => settled
                              end).
  assert (G : forall acc,
             foldl f acc finished !! p =
             match (if decide (p ∈ finished)
                    then (fun a => a q) <$> task_of launched p else None) with
             | Some o => Some o
             | None => acc !! p
             end).
  { induction finished as [|x l IH]; intros acc; cbn [foldl].
    - rewrite decide_False by apply not_elem_of_nil. reflexivity.
    - rewrite IH. destruct (decide (p ∈ l)) as [Hin|Hout].
      + rewrite decide_True by (right; exact Hin).
        destruct (task_of launched p) as [a|] eqn:Ea; simpl; [reflexivity|].
        unfold f. destruct (decide (x = p)) as [->|Hne].
        * rewrite Ea. reflexivity.
        * destruct (task_of launched x); [|reflexivity].
          apply lookup_insert_ne, Hne.
      + unfold f at 1. destruct (decide (x = p)) as [->|Hne].
        * rewrite decide_True by left.
          destruct (task_of launched p); simpl; [apply lookup_insert_eq | reflexivity].
        * rewrite decide_False.
          2:{ intros [->|Hin]%elem_of_cons; [congruence | exact (Hout Hin)]. }
          destruct (task_of launched x); [|reflexivity].
          apply lookup_insert_ne, Hne. }
  rewrite G. destruct (decide (p ∈ finished)); [|apply lookup_empty].
  destruct (task_of launched p); reflexivity.
Qed.

Lemma joined_settle (q : string) (launched : list (PlatformId * Adapter))
    (finished1 finished2 : list PlatformId) (p : PlatformId) :
  (forall p, p ∈ finished1 <-> p ∈ finished2) ->
  joined (settle q launched finished1) p = joined (settle q launched finished2) p.
Proof.
  intros Hsame. unfold joined. rewrite !settle_lookup.
  destruct (decide (p ∈ finished1)) as [H1|H1];
    destruct (decide (p ∈ finished2)) as [H2|H2];
    try reflexivity; exfalso; apply Hsame in H1 || apply Hsame in H2; tauto.
Qed.

(** The Orchestrator's result does not depend on the order in which the
    adapter calls finish. *)
Lemma run_order_independent (finished1 finished2 : list PlatformId)
    (req : SearchRequest) :
  (forall p, p ∈ finished1 <-> p ∈ finished2) ->
  run finished1 req = run finished2 req.
Proof.
  intros Hsame. unfold Platforms.run.
  destruct (mapM _ (platforms req)) as [launched|t]; [|reflexivity].
  unfold mbind, completion_bind.
  assert (E : map (fun t => (t.1, joined (settle (query req) launched finished1) t.1)) launched
            = map (fun t => (t.1, joined (settle (query req) launched finished2) t.1)) launched).
  { apply map_ext. intros t. f_equal. apply joined_settle, Hsame. }
  rewrite E. reflexivity.
Qed.

(** C7: two runs of the pipeline on the same payload, with the same
    adapter responses, give the same results, recommended angles and
    next prompts (and the same failure, if they fail), whatever the time
    of assembly and whatever the order in which the adapter calls
    settle.  (Spec-modelled pipeline.) *)
Theorem two_runs_agree (finished1 finished2 : list PlatformId)
    (now1 now2 : string) (payload : Json) :
  (forall p, p ∈ finished1 <-> p ∈ finished2) ->
  same_but_time (handle finished1 now1 payload) (handle finished2 now2 payload).
Proof.
  intros Hsame. unfold Platforms.handle, mbind, completion_bind.
  destruct (parseSearchRequest describe payload) as [req|t]; [|reflexivity].
  unfold searchAcrossPlatforms, mbind, completion_bind.
  rewrite (run_order_independent finished1 finished2 req Hsame).
  destruct (run finished2 req) as [[merged attempted]|t]; simpl; [|reflexivity].
  repeat split.
Qed.

End Pipeline.

(** The validator on the payloads of section 8 of the specification. *)
Example validator_samples :
  Fixtures.parse (JObj [("query", JStr ""); ("platforms", JArr [JStr "reddit"])])
  = Throw (ThrownError ValidationError "query must not be empty")
  /\ Fixtures.parse (JObj [("query", JStr "x"); ("platforms", JArr [])])
     = Throw (ThrownError ValidationError "select at least one platform")
  /\ Fixtures.parse (JObj [("query", JStr "x"); ("platforms", JArr [JStr "x"])])
     = Throw (ThrownError ValidationError "unknown platform")
  /\ Fixtures.parse
       (JObj [("query", JStr "  ai agents  ");
              ("platforms", JArr [JStr "reddit"; JStr "reddit"])])
     = Normal {| query := "ai agents"; platforms := [reddit] |}.
Proof. vm_compute. repeat split. Qed.

(** The Orchestrator when some adapters fail and when all do. *)
Example orchestrator_samples :
  let req := {| query := "ai agents"; platforms := [reddit; hackernews; devto] |} in
  (exists merged,
      Platforms.run Fixtures.describe Fixtures.registry_partial
        [devto; reddit] req = Normal (merged, [reddit; hackernews; devto])
      /\ map n_id merged = ["reddit:a"; "reddit:b"; "reddit:c"; "devto:d"])
  /\ Platforms.run Fixtures.describe Fixtures.registry_down
       [devto; hackernews; reddit] req
     = fail Fixtures.describe
         (AllAdaptersFailed
            [{| failed_platform := reddit; cause := rate_limited |};
             {| failed_platform := hackernews; cause := timeout |};
             {| failed_platform := devto; cause := transport |}]).
Proof. split; [eexists; split|]; vm_compute; reflexivity. Qed.

Lemma response_in_rank_order_witness :
  exists resp merged attempted,
    Fixtures.search Fixtures.registry_partial
      {| query := "ai agents"; platforms := [devto; reddit; hackernews] |}
    = Normal resp
    /\ map score (results resp) = [5%Q; 5%Q; 3%Q; 3%Q]
    /\ map result_id (results resp)
       = ["reddit:b"; "devto:d"; "reddit:a"; "reddit:c"]
    /\ Platforms.run Fixtures.describe Fixtures.registry_partial
         [hackernews; reddit; devto]
         {| query := "ai agents"; platforms := [devto; reddit; hackernews] |}
       = Normal (merged, attempted)
    /\ in_rank_order (map (scored Fixtures.score_primary) merged) (results resp).
Proof.
  eexists. 
  destruct (response_in_rank_order Fixtures.describe Fixtures.registry_partial
              Fixtures.score_primary None Fixtures.synthesize
              [hackernews; reddit; devto] "2024-05-01T10:00:00.000Z"
              {| query := "ai agents"; platforms := [devto; reddit; hackernews] |}
              _ ltac:(vm_compute; reflexivity))
    as (merged & attempted & Hrun & Hord).
  exists merged, attempted.
  split; [vm_compute; reflexivity|].
  split; [vm_compute; reflexivity|].
  split; [vm_compute; reflexivity|].
  split; [exact Hrun | exact Hord].
Defined.

Lemma two_runs_agree_witness :
  same_but_time
    (Platforms.handle Fixtures.describe Fixtures.registry_partial
       Fixtures.score_primary (Some 40) Fixtures.synthesize
       [reddit; hackernews; devto] "2024-05-01T10:00:00.000Z"
       Fixtures.payload_good)
    (Platforms.handle Fixtures.describe Fixtures.registry_partial
       Fixtures.score_primary (Some 40) Fixtures.synthesize
       [devto; reddit; devto; hackernews] "2024-05-01T10:00:07.500Z"
       Fixtures.payload_good).
Proof.
  apply (two_runs_agree Fixtures.describe Fixtures.registry_partial
           Fixtures.score_primary (Some 40) Fixtures.synthesize
           [reddit; hackernews; devto] [devto; reddit; devto; hackernews]).
  intros p. rewrite !elem_of_cons, !elem_of_nil. destruct p; intuition congruence.
Defined.

End PipelineFacts.

(** ** The Scoring Engine *)

Module ScoringFacts.
Import Platforms Scoring.
Local Open Scope R_scope.

Lemma metric_nonneg (md : gmap string Q) (key : string) : 0 <= metric md key.
Proof. unfold metric. destruct (md !! key); [apply Rmax_l | lra]. Qed.

Lemma metric_absent (md : gmap string Q) (key : string) :
  md !! key = None -> metric md key = 0.
Proof. unfold metric. intros ->. reflexivity. Qed.

(** A negative raw value counts as 0. *)
Lemma metric_clamped (md : gmap string Q) (key : string) (v : Q) :
  md !! key = Some v -> Q2R v <= 0 -> metric md key = 0.
Proof. unfold metric. intros -> H. apply Rmax_left, H. Qed.

Lemma ln_1p_nonneg (x : R) : 0 <= x -> 0 <= ln (1 + x).
Proof.
  intros [H| <-].
  - left. rewrite <- ln_1. apply ln_increasing; lra.
  - rewrite Rplus_0_r, ln_1. lra.
Qed.

Lemma nearest_bounds (x : R) :
  IZR (nearest x) <= x + / 2 /\ x - / 2 < IZR (nearest x).
Proof.
  unfold nearest. destruct (base_Int_part (x + / 2)) as [H1 H2]. lra.
Qed.

Lemma nearest_nonneg (x : R) : 0 <= x -> (0 <= nearest x)%Z.
Proof.
  intros H. destruct (nearest_bounds x) as [_ H2].
  assert (H3 : IZR (-1) < IZR (nearest x)) by (simpl; lra).
  apply lt_IZR in H3. lia.
Qed.

Lemma nearest_0 : nearest 0 = 0%Z.
Proof. unfold nearest. symmetry. apply Int_part_spec. simpl. lra. Qed.

Section Engine.

Variable primary_weight secondary_weight normalization : PlatformId -> R.

Hypothesis primary_weight_nonneg : forall p, 0 <= primary_weight p.
Hypothesis secondary_weight_nonneg : forall p, 0 <= secondary_weight p.
Hypothesis normalization_nonneg : forall p, 0 <= normalization p.

Local Abbreviation combined := (combined primary_weight secondary_weight).
Local Abbreviation scaled :=
  (scaled primary_weight secondary_weight normalization).
Local Abbreviation score_tenths :=
  (score_tenths primary_weight secondary_weight normalization).
Local Abbreviation score :=
  (score primary_weight secondary_weight normalization).

Lemma combined_nonneg (p : PlatformId) (md : gmap string Q) :
  0 <= combined p md.
Proof.
  unfold Scoring.combined.
  pose proof (metric_nonneg md (primary_metric p)).
  pose proof (metric_nonneg md (secondary_metric p)).
  pose proof (primary_weight_nonneg p).
  pose proof (secondary_weight_nonneg p).
  nra.
Qed.

Lemma scaled_nonneg (p : PlatformId) (md : gmap string Q) : 0 <= scaled p md.
Proof.
  unfold Scoring.scaled, transformed.
  apply Rmult_le_pos; [apply normalization_nonneg|].
  apply ln_1p_nonneg, combined_nonneg.
Qed.

(** C4: the score of every result is a non-negative real number with
    one decimal place (a whole number of tenths, at most half a tenth
    away from the scaled value), and it is exactly 0 when the metadata
    holds neither metric of the platform, in particular when it is
    empty.  (Spec-modelled Scoring Engine; weights and normalization
    constants are any non-negative numbers.) *)
Theorem score_nonneg_one_decimal (p : PlatformId) (md : gmap string Q) :
  0 <= score p md
  /\ (exists k : Z, (0 <= k)%Z /\ score p md = IZR k / 10)
  /\ Rabs (score p md - scaled p md) <= / 20
  /\ (md !! primary_metric p = None -> md !! secondary_metric p = None ->
      score p md = 0)
  /\ (md = ∅ -> score p md = 0).
Proof.
  pose proof (scaled_nonneg p md) as Hs.
  assert (Hk : (0 <= score_tenths p md)%Z).
  { unfold Scoring.score_tenths. apply nearest_nonneg. lra. }
  assert (Hzero : md !! primary_metric p = None ->
                  md !! secondary_metric p = None -> score p md = 0).
  { intros H1 H2. unfold Scoring.score, Scoring.score_tenths, Scoring.scaled,
      transformed, Scoring.combined.
    rewrite (metric_absent _ _ H1), (metric_absent _ _ H2).
    replace (1 + (primary_weight p * 0 + secondary_weight p * 0)) with 1 by ring.
    rewrite ln_1, Rmult_0_r, Rmult_0_l, nearest_0. simpl. lra. }
  split; [|split; [|split; [|split]]].
  - unfold Scoring.score. apply IZR_le in Hk. simpl in Hk. lra.
  - exists (score_tenths p md). split; [exact Hk | reflexivity].
  - unfold Scoring.score, Scoring.score_tenths.
    destruct (nearest_bounds (scaled p md * 10)) as [H1 H2].
    apply Rabs_le. lra.
  - exact Hzero.
  - intros ->. apply Hzero; apply lookup_empty.
Qed.

(** The number a [Result] carries is the same score. *)
Lemma score_of_score (p : PlatformId) (md : gmap string Q) :
  Q2R (score_of primary_weight secondary_weight normalization p md)
  = score p md.
Proof.
  unfold score_of, Scoring.score. rewrite Q2R_div by discriminate.
  unfold Q2R. simpl. field.
Qed.

End Engine.

Lemma score_nonneg_one_decimal_witness :
  let w1 := fun _ : PlatformId => 7 / 10 in
  let w2 := fun _ : PlatformId => 3 / 10 in
  let c := fun p : PlatformId =>
             match p with reddit => 3 / 2 | hackernews => 7 / 4 | devto => 2 end in
  let md : gmap string Q := {[ "upvotes" := 120%Q; "comments" := (-4)%Q ]} in
  0 <= Scoring.score w1 w2 c reddit md
  /\ (exists k : Z, (0 <= k)%Z /\ Scoring.score w1 w2 c reddit md = IZR k / 10)
  /\ Rabs (Scoring.score w1 w2 c reddit md - Scoring.scaled w1 w2 c reddit md)
     <= / 20
  /\ (md !! primary_metric reddit = None ->
      md !! secondary_metric reddit = None ->
      Scoring.score w1 w2 c reddit md = 0)
  /\ (md = ∅ -> Scoring.score w1 w2 c reddit md = 0).
Proof.
  intros w1 w2 c md.
  apply (score_nonneg_one_decimal w1 w2 c).
  - intros p. unfold w1. lra.
  - intros p. unfold w2. lra.
  - intros p. unfold c. destruct p; lra.
Defined.

End ScoringFacts.

(** ** The route *)

Module RouteFacts.
Import Platforms Route.

Section Handler.

Variable parse : Json -> Completion SearchRequest.
Variable search : SearchRequest -> Completion SearchResponse.

(** A request whose search was started has passed the validator. *)
Lemma attempt_unfold (payload : Json) (l : list Event) :
  attempt parse search (Normal payload) l =
  match parse payload with
  | Throw t => (Throw t, l)
  | Normal req =>
      match search {| query := query req; platforms := platforms req |} with
      | Throw t => (Throw t, l ++ [SearchStarted req])
      | Normal d =>
          (Normal (NextResponse_json (BodyData d) None), l ++ [SearchStarted req])
      end
  end.
Proof.
  unfold attempt, lift, emit, mbind, eff_bind, mret, eff_ret.
  destruct (parse payload) as [req|t]; [|reflexivity].
  destruct (search _) as [d|t]; reflexivity.
Qed.

(** The [catch] block turns whatever was thrown into a 400 response that
    carries the message. *)
Lemma POST_of_failure (rq : Completion Json) (t : Thrown) (l l' : list Event) :
  attempt parse search rq l = (Throw t, l') ->
  POST parse search rq l =
  (Normal {| body := BodyError (message_of t); status := 400 |},
   l' ++ [ConsoleError t]).
Proof.
  intros H. unfold POST, try_catch. rewrite H. reflexivity.
Qed.

(** The handler always answers: nothing escapes its [try]. *)
Lemma POST_answers (rq : Completion Json) (l : list Event) :
  exists resp l', POST parse search rq l = (Normal resp, l').
Proof.
  unfold POST, try_catch.
  destruct (attempt parse search rq l) as [[resp|t] l'] eqn:E; eauto.
Qed.

(** C1, as amended: whenever the [try] block of [POST] fails, whatever
    was thrown, the response has status 400, a client error and not a
    server error, and its body carries the message. *)
Theorem POST_failure_status (rq : Completion Json) (t : Thrown)
    (l : list Event) :
  attempt parse search rq [] = (Throw t, l) ->
  exists resp,
    (POST parse search rq []).1 = Normal resp
    /\ status resp = 400
    /\ client_error (status resp)
    /\ ~ server_error (status resp)
    /\ body resp = BodyError (message_of t).
Proof.
  intros H. rewrite (POST_of_failure _ _ _ _ H).
  eexists; split; [reflexivity|]. simpl.
  unfold client_error, server_error. repeat split; lia.
Qed.

(** C2: when [parseSearchRequest] rejects the payload, [POST] answers
    with the validation error without ever starting the search: the
    only event of the run is the console line. *)
Theorem validation_failure_skips_search (payload : Json) (t : Thrown) :
  parse payload = Throw t ->
  let run := POST parse search (Normal payload) [] in
  run.1 = Normal {| body := BodyError (message_of t); status := 400 |}
  /\ run.2 = [ConsoleError t]
  /\ forall req, SearchStarted req ∉ run.2.
Proof.
  intros H run. subst run.
  assert (E : attempt parse search (Normal payload) [] = (Throw t, [])).
  { rewrite attempt_unfold, H. reflexivity. }
  rewrite (POST_of_failure _ _ _ _ E). simpl.
  repeat split. intros req Hin.
  apply list_elem_of_singleton in Hin. discriminate.
Qed.

End Handler.

(** With every adapter down the pipeline fails with an
    [AggregationError], and [POST] still answers 400. *)
Lemma aggregation_failure_is_400 :
  attempt Fixtures.parse (Fixtures.search Fixtures.registry_down)
    (Normal Fixtures.payload_good) []
  = (Throw (ThrownError AggregationError "every platform failed"),
     [SearchStarted {| query := "ai agents";
                       platforms := [devto; reddit; hackernews] |}])
  /\ (POST Fixtures.parse (Fixtures.search Fixtures.registry_down)
        (Normal Fixtures.payload_good) []).1
     = Normal {| body := BodyError "every platform failed"; status := 400 |}.
Proof. split; vm_compute; reflexivity. Qed.

(** C1, counterexample: the status does not tell an [AggregationError]
    from a validation failure. *)
Lemma status_by_failure_class_fails :
  ~ status_by_failure_class
      Fixtures.parse (Fixtures.search Fixtures.registry_down).
Proof.
  intros claim.
  destruct aggregation_failure_is_400 as [Hfail Hresp].
  specialize (claim _ _ _ _ Hfail Hresp). simpl in claim.
  unfold server_error in claim. lia.
Qed.

Lemma POST_failure_status_witness :
  exists resp,
    (POST Fixtures.parse (Fixtures.search Fixtures.registry_down)
       (Normal Fixtures.payload_good) []).1 = Normal resp
    /\ status resp = 400
    /\ client_error (status resp)
    /\ ~ server_error (status resp)
    /\ body resp = BodyError "every platform failed".
Proof.
  apply (POST_failure_status Fixtures.parse
           (Fixtures.search Fixtures.registry_down)
           (Normal Fixtures.payload_good)
           (ThrownError AggregationError "every platform failed")
           [SearchStarted {| query := "ai agents";
                             platforms := [devto; reddit; hackernews] |}]).
  vm_compute; reflexivity.
Defined.

Lemma validation_failure_skips_search_witness :
  let run := POST Fixtures.parse (Fixtures.search Fixtures.registry_partial)
               (Normal Fixtures.payload_no_query) [] in
  run.1 = Normal {| body := BodyError "query must not be empty"; status := 400 |}
  /\ run.2 = [ConsoleError (ThrownError ValidationError "query must not be empty")]
  /\ forall req, SearchStarted req ∉ run.2.
Proof.
  apply (validation_failure_skips_search Fixtures.parse
           (Fixtures.search Fixtures.registry_partial)
           Fixtures.payload_no_query
           (ThrownError ValidationError "query must not be empty")).
  vm_compute; reflexivity.
Defined.

(** A request that succeeds: one search is started and the data comes
    back with the default status. *)
Example POST_success_sample :
  exists d,
    POST Fixtures.parse (Fixtures.search Fixtures.registry_partial)
      (Normal Fixtures.payload_good) []
    = (Normal {| body := BodyData d; status := 200 |},
       [SearchStarted {| query := "ai agents";
                         platforms := [devto; reddit; hackernews] |}])
    /\ map result_id (results d)
       = ["reddit:b"; "devto:d"; "reddit:a"; "reddit:c"]
    /\ meta_platforms (meta d) = [devto; reddit; hackernews].
Proof. eexists. split; [|split]; vm_compute; reflexivity. Qed.

(** A body that does not decode, and a thrown value that is not an
    [Error]. *)
Example POST_decode_samples :
  (POST Fixtures.parse (Fixtures.search Fixtures.registry_partial)
     (Throw (ThrownError SyntaxError "Unexpected end of JSON input")) []).1
  = Normal {| body := BodyError "Unexpected end of JSON input"; status := 400 |}
  /\ (POST Fixtures.parse (Fixtures.search Fixtures.registry_partial)
        (Throw (ThrownValue (JStr "boom"))) []).1
     = Normal {| body := BodyError "Unknown error"; status := 400 |}.
Proof. split; reflexivity. Qed.

Section Reporting.

Variable parse : Json -> Completion SearchRequest.
Variable search : SearchRequest -> Completion SearchResponse.


End Reporting.

(** A validation error thrown without a text is answered with an empty
    message. *)
Lemma silent_failure_is_empty :
  attempt Fixtures.parse_silent (Fixtures.search Fixtures.registry_partial)
    (Normal Fixtures.payload_no_query) []
  = (Throw (ThrownError ValidationError ""), [])
  /\ (POST Fixtures.parse_silent (Fixtures.search Fixtures.registry_partial)
        (Normal Fixtures.payload_no_query) []).1
     = Normal {| body := BodyError ""; status := 400 |}.
Proof. split; vm_compute; reflexivity. Qed.



End RouteFacts.

(** ** The client page *)

Module PageFacts.
Import Platforms Page.

(** *** The submit guard *)

(** C8: when the query trims to the empty string or no platform is
    selected, [handleSubmit] leaves the browser untouched (no request to
    [/api/search] is sent), sets a non-empty error message and changes
    nothing else of the state; the displayed data stays as it was. *)
Theorem handleSubmit_blocked (st : State) (w : Browser) :
  trim (st_query st) = "" \/ selectedPlatforms st = [] ->
  exists msg,
    handleSubmit st w = (setError (Some msg) st, w)
    /\ msg <> ""
    /\ requests (log (handleSubmit st w).2) = requests (log w)
    /\ error (handleSubmit st w).1 = Some msg
    /\ data (handleSubmit st w).1 = data st.
Proof.
  intros H. unfold handleSubmit.
  destruct (falsy (trim (st_query st))) eqn:E.
  - eexists. repeat split. discriminate.
  - destruct H as [H|H].
    + rewrite H in E. discriminate.
    + rewrite H. eexists. repeat split. discriminate.
Qed.

(** Otherwise exactly one request is sent, with the trimmed query. *)
Lemma handleSubmit_sends (st : State) (w : Browser) :
  trim (st_query st) <> "" -> selectedPlatforms st <> [] ->
  handleSubmit st w
  = (setLoading true (setError None st),
     fetch (trim (st_query st)) (selectedPlatforms st) w).
Proof.
  intros Hq Hp. unfold handleSubmit.
  destruct (trim (st_query st)); [congruence|]. simpl.
  destruct (selectedPlatforms st); [congruence | reflexivity].
Qed.

Lemma handleSubmit_blocked_witness :
  exists msg,
    handleSubmit (setQuery "  " (initial [reddit])) {| storage := None; log := [] |}
    = (setError (Some msg) (setQuery "  " (initial [reddit])),
       {| storage := None; log := [] |})
    /\ msg <> ""
    /\ requests (log (handleSubmit (setQuery "  " (initial [reddit]))
                       {| storage := None; log := [] |}).2)
       = requests (log {| storage := None; log := [] |})
    /\ error (handleSubmit (setQuery "  " (initial [reddit]))
               {| storage := None; log := [] |}).1 = Some msg
    /\ data (handleSubmit (setQuery "  " (initial [reddit]))
              {| storage := None; log := [] |}).1
       = data (setQuery "  " (initial [reddit])).
Proof.
  apply (handleSubmit_blocked (setQuery "  " (initial [reddit]))
           {| storage := None; log := [] |}).
  left. vm_compute. reflexivity.
Defined.

(** *** The history *)

Lemma others_spec (q : string) (prev : list HistoryEntry) (e : HistoryEntry) :
  e ∈ others q prev <-> e ∈ prev /\ entry_query e <> q.
Proof.
  unfold others. rewrite !list_elem_of_In, List.filter_In.
  rewrite negb_true_iff, String.eqb_neq. reflexivity.
Qed.

Lemma others_queries (q : string) (prev : list HistoryEntry) :
  q ∉ map entry_query (others q prev).
Proof.
  intros Hin. apply list_elem_of_fmap in Hin.
  destruct Hin as (e & -> & He). apply others_spec in He. tauto.
Qed.

Lemma others_NoDup (q : string) (prev : list HistoryEntry) :
  NoDup (map entry_query prev) -> NoDup (map entry_query (others q prev)).
Proof.
  induction prev as [|e prev IH]; simpl; [constructor|].
  intros [Hnotin Hrest]%NoDup_cons.
  destruct (negb (String.eqb (entry_query e) q)); [|auto].
  simpl. apply NoDup_cons. split; [|auto].
  intros Hin. apply Hnotin.
  apply list_elem_of_fmap in Hin. destruct Hin as (e' & Heq & He').
  apply list_elem_of_fmap. exists e'. split; [exact Heq|].
  apply others_spec in He'. tauto.
Qed.

Lemma settled_history (payload : SearchResponse) (st : State) :
  history (handleSubmit_settled (Ok payload) st)
  = entry_of payload :: others (meta_query (meta payload)) (history st).
Proof. reflexivity. Qed.

Lemma settled_queries_unique (payload : SearchResponse) (st : State) :
  NoDup (map entry_query (history st)) ->
  NoDup (map entry_query (history (handleSubmit_settled (Ok payload) st))).
Proof.
  intros Hunique. rewrite settled_history. simpl.
  apply NoDup_cons. split; [apply others_queries | apply others_NoDup, Hunique].
Qed.

(** C10: a successful submission puts the new entry first, keeps of
    the older entries exactly those with another query, in their order,
    and so preserves the uniqueness of queries in the history. *)
Theorem submit_keeps_queries_unique (payload : SearchResponse) (st : State) :
  NoDup (map entry_query (history st)) ->
  let h' := history (handleSubmit_settled (Ok payload) st) in
  let q := meta_query (meta payload) in
  head h' = Some (entry_of payload)
  /\ entry_query (entry_of payload) = q
  /\ (forall e, e ∈ tail h' <-> e ∈ history st /\ entry_query e <> q)
  /\ tail h' = List.filter (fun e => negb (String.eqb (entry_query e) q)) (history st)
  /\ NoDup (map entry_query h').
Proof.
  intros Hunique h' q. subst h'.
  split; [reflexivity|]. split; [reflexivity|].
  split; [|split; [reflexivity | apply settled_queries_unique, Hunique]].
  intros e. rewrite settled_history. simpl. apply others_spec.
Qed.

Lemma submit_keeps_queries_unique_witness :
  let entry q := {| entry_query := q; timestamp := "2024-04-30T09:00:00.000Z";
                    entry_platforms := [reddit];
                    summary := {| meta_query := q;
                                  generatedAt := "2024-04-30T09:00:00.000Z";
                                  meta_platforms := [reddit];
                                  recommendedAngles := [];
                                  nextPrompts := [] |} |} in
  let st := setHistory [entry "rust"; entry "ai agents"; entry "go"]
              (initial [reddit]) in
  let payload := {| results := [];
                    meta := {| meta_query := "ai agents";
                               generatedAt := "2024-05-01T10:00:00.000Z";
                               meta_platforms := [reddit; devto];
                               recommendedAngles := ["underserved segment"];
                               nextPrompts := ["Who talks about it?"] |} |} in
  let h' := history (handleSubmit_settled (Ok payload) st) in
  map entry_query h' = ["ai agents"; "rust"; "go"]
  /\ head h' = Some (entry_of payload)
  /\ entry_query (entry_of payload) = "ai agents"
  /\ (forall e, e ∈ tail h' <-> e ∈ history st /\ entry_query e <> "ai agents")
  /\ tail h'
     = List.filter (fun e => negb (String.eqb (entry_query e) "ai agents"))
         (history st)
  /\ NoDup (map entry_query h').
Proof.
  intros entry st payload h'.
  split; [vm_compute; reflexivity|].
  apply (submit_keeps_queries_unique payload st).
  vm_compute. repeat (apply NoDup_cons_2; [by rewrite ?elem_of_cons, elem_of_nil; intuition discriminate|]).
  apply NoDup_nil_2.
Defined.

Lemma reads_snoc (l : list Effect) (e : Effect) :
  reads (l ++ [e]) = reads l + match e with GetItem => 1 | _ => 0 end.
Proof.
  unfold reads. rewrite List.filter_app, length_app. destruct e; reflexivity.
Qed.

Lemma saves_within_snoc (n : nat) (l : list Effect) (e : Effect) :
  saves_within n l ->
  match e with SetItem entries => length entries <= n | _ => True end ->
  saves_within n (l ++ [e]).
Proof.
  intros Hl He. apply Forall_app. split; [exact Hl|]. repeat constructor. exact He.
Qed.

Lemma head_snoc {A : Type} (l : list A) (x y : A) :
  head l = Some x -> head (l ++ [y]) = Some x.
Proof. destruct l; [discriminate | auto]. Qed.

Section Component.

Variable PLATFORMS : list PlatformId.

(** Saving keeps the lifecycle, whatever the history has become. *)
Lemma saveHistory_lifecycle (st st' : State) (w : Browser) :
  lifecycle (st, w) -> lifecycle (st', saveHistory (history st') w).
Proof.
  intros (Hr & Hh & Hs & _). unfold lifecycle, saveHistory, setItem.
  simpl in *.
  split; [rewrite reads_snoc; lia|].
  split; [apply head_snoc, Hh|].
  split; [apply saves_within_snoc; [exact Hs | rewrite length_take; lia]|].
  eexists. split; [reflexivity|]. split; [reflexivity|].
  rewrite length_take. lia.
Qed.

(** A change of the state that leaves the history and the browser's
    storage alone keeps the lifecycle. *)
Lemma lifecycle_same_history (st st' : State) (w : Browser) :
  history st' = history st -> lifecycle (st, w) -> lifecycle (st', w).
Proof. unfold lifecycle. simpl. intros ->. auto. Qed.

Lemma mount_lifecycle (stored : option Item) :
  lifecycle (mount PLATFORMS {| storage := stored; log := [] |}).
Proof.
  unfold lifecycle, mount, loadHistory, getItem, saveHistory, setItem,
    removeItem.
  destruct stored as [[| raw | parsed]|]; simpl;
    (split; [reflexivity|]); (split; [reflexivity|]);
    (split; [repeat (apply Forall_cons; split;
                       [first [exact I | simpl; rewrite ?length_take; lia]|]);
             apply Forall_nil|]);
    eexists; (split; [reflexivity|]); (split; [reflexivity|]);
    simpl; rewrite ?length_take; lia.
Qed.

Lemma step_lifecycle (sw : State * Browser) (a : Action) :
  lifecycle sw -> lifecycle (step sw a).
Proof.
  destruct sw as [st w]. intros H. destruct a as [text|p| |reply|entry]; simpl.
  - eapply lifecycle_same_history; [|exact H]. reflexivity.
  - eapply lifecycle_same_history; [|exact H]. reflexivity.
  - unfold handleSubmit.
    destruct (falsy (trim (st_query st)));
      [eapply lifecycle_same_history; [|exact H]; reflexivity|].
    destruct (selectedPlatforms st);
      [eapply lifecycle_same_history; [|exact H]; reflexivity|].
    destruct H as (Hr & Hh & Hs & Hst). unfold lifecycle, fetch. simpl in *.
    split; [rewrite reads_snoc; lia|].
    split; [apply head_snoc, Hh|].
    split; [apply saves_within_snoc; [exact Hs | exact I]|].
    exact Hst.
  - destruct reply; try (eapply lifecycle_same_history; [|exact H]; reflexivity).
    exact (saveHistory_lifecycle st (handleSubmit_settled (Ok payload) st) w H).
  - eapply lifecycle_same_history; [|exact H]. reflexivity.
Qed.

(** C6: in every visit of the page, whatever was stored before and
    whatever happens after the mount, the stored history is read exactly
    once, first of all; every list saved has at most 8 entries; and in
    the end the stored list is the first 8 entries of the history state,
    so at most 8 entries. *)
Theorem history_lifecycle (stored : option Item) (actions : list Action) :
  lifecycle (visit PLATFORMS stored actions).
Proof.
  unfold visit.
  generalize (mount_lifecycle stored).
  generalize (mount PLATFORMS {| storage := stored; log := [] |}).
  induction actions as [|a actions IH]; intros sw H; simpl; [exact H|].
  apply IH, step_lifecycle, H.
Qed.

(** Uniqueness of the queries is an invariant of a visit, provided the
    stored history, if there is one, has it. *)
Lemma visit_queries_unique (stored : option Item) (actions : list Action) :
  (forall entries, stored = Some (ItemHistory entries) ->
                   NoDup (map entry_query entries)) ->
  NoDup (map entry_query (history (visit PLATFORMS stored actions).1)).
Proof.
  intros Hstored. unfold visit.
  assert (H0 : NoDup (map entry_query
                        (history (mount PLATFORMS
                                    {| storage := stored; log := [] |}).1))).
  { destruct stored as [[| raw | parsed]|]; simpl; try apply NoDup_nil_2.
    apply Hstored. reflexivity. }
  revert H0. generalize (mount PLATFORMS {| storage := stored; log := [] |}).
  induction actions as [|a actions IH]; intros [st w] H; simpl; [exact H|].
  apply IH. destruct a as [text|p| |reply|entry]; simpl; try exact H.
  - unfold handleSubmit. destruct (falsy _); [exact H|].
    destruct (selectedPlatforms st); exact H.
  - destruct reply; simpl; try exact H.
    apply settled_queries_unique, H.
Qed.

End Component.

(** Ten stored entries: the mount reads them once, saves the empty
    initial history, then the first eight of the ten. *)
Example mount_sample :
  let entry q := {| entry_query := q; timestamp := "2024-04-30T09:00:00.000Z";
                    entry_platforms := [reddit];
                    summary := {| meta_query := q;
                                  generatedAt := "2024-04-30T09:00:00.000Z";
                                  meta_platforms := [reddit];
                                  recommendedAngles := [];
                                  nextPrompts := [] |} |} in
  let ten := map entry ["a"; "b"; "c"; "d"; "e"; "f"; "g"; "h"; "i"; "j"] in
  let sw := visit [reddit; hackernews; devto] (Some (ItemHistory ten)) [] in
  log sw.2 = [GetItem; SetItem []; SetItem (take 8 ten)]
  /\ length (history sw.1) = 10
  /\ storage sw.2 = Some (ItemHistory (take 8 ten)).
Proof. vm_compute. repeat split. Qed.

(** *** The average engagement *)

Lemma half_up_bounds (n d : Z) :
  (0 < d)%Z ->
  (inject_Z ((2 * n + d) / (2 * d)) - (1 # 2) <= inject_Z n / inject_Z d
   /\ inject_Z n / inject_Z d < inject_Z ((2 * n + d) / (2 * d)) + (1 # 2))%Q.
Proof.
  intros Hd. set (k := ((2 * n + d) / (2 * d))%Z).
  assert (Hd' : (0 < inject_Z d)%Q).
  { change 0%Q with (inject_Z 0). rewrite <- Zlt_Qlt. exact Hd. }
  assert (H1 : (2 * d * k <= 2 * n + d)%Z) by (apply Z.mul_div_le; lia).
  assert (H2 : (2 * n + d < 2 * d * Z.succ k)%Z)
    by (apply Z.mul_succ_div_gt; lia).
  rewrite Zle_Qle in H1. rewrite Zlt_Qlt in H2. unfold Z.succ in H2.
  repeat (rewrite inject_Z_plus in H1 || rewrite inject_Z_mult in H1).
  repeat (rewrite inject_Z_plus in H2 || rewrite inject_Z_mult in H2).
  change (inject_Z 2) with 2%Q in *. change (inject_Z 1) with 1%Q in *.
  generalize dependent (inject_Z k). generalize dependent (inject_Z n).
  generalize dependent (inject_Z d). clear. intros D HD N K H1 H2.
  split.
  - apply Qle_shift_div_l; [exact HD|]. Lqa.lra.
  - apply Qlt_shift_div_r; [exact HD|]. Lqa.lra.
Qed.

Lemma pow2_neg (e : Z) : (e < 0)%Z -> (2 ^ e == / inject_Z (2 ^ (- e)))%Q.
Proof.
  intros He. rewrite Zpower_Qpower by lia.
  change (inject_Z 2) with 2%Q. rewrite <- Qpower_opp.
  replace (- - e)%Z with e by lia. reflexivity.
Qed.

(** [Math.round] of a finite double is the integer nearest to the number
    the double stands for, a tie going up: the double itself when it is
    that integer, otherwise that integer as a double. *)
Lemma Math_round_nearest (y : float) (v : Q) :
  exact y = Some v ->
  exists k : Z,
    (inject_Z k - (1 # 2) <= v /\ v < inject_Z k + (1 # 2))%Q
    /\ ((Math_round y = y /\ (v == inject_Z k)%Q)
        \/ exists s, Math_round y = signed_int s k).
Proof.
  unfold exact, Math_round.
  destruct (FloatOps.Prim2SF y) as [s| s | |s m e]; try discriminate.
  - intros [= <-]. exists 0%Z. change (inject_Z 0) with 0%Q.
    split; [split; Lqa.lra|]. left. split; reflexivity.
  - intros [= <-].
    set (n := if s then Z.neg m else Z.pos m).
    destruct (e <? 0)%Z eqn:He.
    + apply Z.ltb_lt in He. exists (half_up s m e).
      assert (Hd : (0 < 2 ^ (- e))%Z) by (apply Z.pow_pos_nonneg; lia).
      pose proof (half_up_bounds n (2 ^ (- e)) Hd) as Hb.
      rewrite (pow2_neg e He).
      split; [exact Hb|]. right. exists s. reflexivity.
    + apply Z.ltb_ge in He. exists (n * 2 ^ e)%Z.
      assert (Hv : (inject_Z n * 2 ^ e == inject_Z (n * 2 ^ e))%Q).
      { rewrite inject_Z_mult, Zpower_Qpower by exact He. reflexivity. }
      rewrite Hv. split; [split; Lqa.lra|]. left. split; reflexivity.
Qed.

(** NaN and the infinities are returned as they are. *)
Lemma Math_round_special (y : float) : exact y = None -> Math_round y = y.
Proof.
  unfold exact, Math_round.
  destruct (FloatOps.Prim2SF y); try discriminate; reflexivity.
Qed.

(** Two doubles that differ as specified floats differ. *)
Lemma float_neq (x y : float) :
  FloatOps.Prim2SF x <> FloatOps.Prim2SF y -> x <> y.
Proof. intros H E. apply H. rewrite E. reflexivity. Qed.

(** The page on some responses: scores 5, 5, 3 and 3.4 show 4.1; scores
    0.1 and 4.6 show 2.3 and scores 0 and 0.3 show 0.2; a sum beyond the
    range of the doubles shows Infinity. *)
Example engagementScore_samples :
  let result s := {| result_id := "reddit:a"; platform := reddit; title := "t";
                     url := "u"; excerpt := "e"; author := None;
                     metadata := ∅; score := s |} in
  let response scores :=
    {| results := map result scores;
       meta := {| meta_query := "q"; generatedAt := "t";
                  meta_platforms := [reddit]; recommendedAngles := [];
                  nextPrompts := [] |} |} in
  engagementScore (Some (response [5; 5; 3; 34 # 10]%Q)) = number_of (41 # 10)
  /\ engagementScore (Some (response [1 # 10; 46 # 10]%Q)) = number_of (23 # 10)
  /\ engagementScore (Some (response [0; 3 # 10]%Q)) = number_of (2 # 10)
  /\ engagementScore (Some (response [inject_Z (10 ^ 308); inject_Z (10 ^ 308)]))
     = infinity
  /\ engagementScore (Some (response [])) = 0%float.
Proof. vm_compute. repeat split. Qed.



End PageFacts.

(** ** White space and [trim] *)

Module TextFacts.
Import Text.

Lemma trimStart_blank (s : string) : blank s = true -> trimStart s = "".
Proof.
  induction s as [|c s IH]; simpl; [reflexivity|].
  intros [Hc Hs]%andb_true_iff. rewrite Hc. auto.
Qed.

Lemma trimStart_not_blank (s : string) :
  blank s = false -> leading_space (trimStart s) = false /\ trimStart s <> "".
Proof.
  induction s as [|c s IH]; simpl; [discriminate|].
  destruct (is_space c) eqn:Hc; simpl; [exact IH|].
  intros _. simpl. rewrite Hc. split; [reflexivity | discriminate].
Qed.

Lemma trimEnd_blank (s : string) : blank s = true -> trimEnd s = "".
Proof.
  induction s as [|c s IH]; simpl; [reflexivity|].
  intros [Hc Hs]%andb_true_iff. rewrite (IH Hs), Hc. reflexivity.
Qed.

Lemma trimEnd_empty (s : string) : trimEnd s = "" -> blank s = true.
Proof.
  induction s as [|c s IH]; simpl; [reflexivity|].
  destruct (trimEnd s) eqn:E; [|discriminate].
  destruct (is_space c); [|discriminate].
  intros _. simpl. auto.
Qed.

(** Trailing white space is what [trimEnd] removes, the leading character
    is kept. *)
Lemma trimEnd_leading (s : string) :
  leading_space s = false -> leading_space (trimEnd s) = false.
Proof.
  destruct s as [|c s]; simpl; [reflexivity|].
  intros Hc. rewrite Hc. destruct (trimEnd s); simpl; exact Hc.
Qed.

Lemma trimEnd_trailing (s : string) : trailing_space (trimEnd s) = false.
Proof.
  induction s as [|c s IH]; simpl; [reflexivity|].
  destruct (trimEnd s) as [|d t] eqn:E.
  - destruct (is_space c) eqn:Hc; simpl; [reflexivity | exact Hc].
  - simpl in *. exact IH.
Qed.

Lemma trimStart_fixed (s : string) :
  leading_space s = false -> trimStart s = s.
Proof. destruct s as [|c s]; simpl; [reflexivity|]. intros ->. reflexivity. Qed.

Lemma trimEnd_fixed (s : string) :
  trailing_space s = false -> trimEnd s = s.
Proof.
  induction s as [|c s IH]; simpl; [reflexivity|].
  destruct s as [|d t].
  - simpl. intros ->. reflexivity.
  - intros H. rewrite (IH H). reflexivity.
Qed.

Lemma trim_leading (s : string) : leading_space (trim s) = false.
Proof.
  unfold trim. destruct (blank s) eqn:B.
  - rewrite (trimStart_blank s B). reflexivity.
  - apply trimEnd_leading, trimStart_not_blank, B.
Qed.

(** The trimmed string is empty exactly when the string holds nothing
    but white space. *)
Lemma trim_empty_iff (s : string) : trim s = "" <-> blank s = true.
Proof.
  unfold trim. split.
  - intros H. apply trimEnd_empty in H.
    destruct (blank s) eqn:B; [reflexivity|].
    destruct (trimStart_not_blank s B) as [Hl Hne].
    destruct (trimStart s) as [|c t]; [congruence|].
    simpl in Hl, H. rewrite Hl in H. discriminate.
  - intros B. rewrite (trimStart_blank s B). reflexivity.
Qed.

(** What [trim] returns has no white space at either end, and trimming
    it again changes nothing. *)
Lemma trim_trimmed (s : string) :
  leading_space (trim s) = false
  /\ trailing_space (trim s) = false
  /\ trim (trim s) = trim s.
Proof.
  assert (Hl := trim_leading s).
  assert (Ht : trailing_space (trim s) = false) by apply trimEnd_trailing.
  repeat split; try assumption.
  unfold trim at 1. rewrite (trimStart_fixed _ Hl). apply trimEnd_fixed, Ht.
Qed.

Example trim_samples :
  trim "  ai agents  " = "ai agents"
  /\ trim (String (ascii_of_nat 9) "a b" +:+ String (ascii_of_nat 10) "") = "a b"
  /\ trim "   " = ""
  /\ trim "x" = "x".
Proof. repeat split. Qed.

End TextFacts.

(** ** More on the route *)

Module RouteMore.
Import Platforms Route Counting.

Section Handler.

Variable parse : Json -> Completion SearchRequest.
Variable search : SearchRequest -> Completion SearchResponse.

Lemma attempt_undecoded (t : Thrown) (l : list Event) :
  attempt parse search (Throw t) l = (Throw t, l).
Proof. reflexivity. Qed.

Lemma request_eta (req : SearchRequest) :
  {| query := query req; platforms := platforms req |} = req.
Proof. destruct req; reflexivity. Qed.

(** The two ways a run of [POST] can go. *)
Lemma POST_cases (rq : Completion Json) :
  (exists payload req d,
      rq = Normal payload /\ parse payload = Normal req
      /\ search req = Normal d
      /\ POST parse search rq []
         = (Normal {| body := BodyData d; status := 200 |}, [SearchStarted req]))
  \/ (exists t l,
        attempt parse search rq [] = (Throw t, l)
        /\ searches l <= 1
        /\ POST parse search rq []
           = (Normal {| body := BodyError (message_of t); status := 400 |},
              l ++ [ConsoleError t])).
Proof.
  destruct rq as [payload|t].
  - destruct (parse payload) as [req|t] eqn:Hp.
    + destruct (search req) as [d|t] eqn:Hs.
      * left. exists payload, req, d. repeat split; try assumption.
        unfold POST, try_catch. rewrite RouteFacts.attempt_unfold, Hp.
        rewrite request_eta, Hs. reflexivity.
      * right. exists t, [SearchStarted req].
        assert (E : attempt parse search (Normal payload) []
                    = (Throw t, [SearchStarted req])).
        { rewrite RouteFacts.attempt_unfold, Hp, request_eta, Hs. reflexivity. }
        split; [exact E|]. split; [unfold searches; simpl; lia|].
        apply RouteFacts.POST_of_failure, E.
    + right. exists t, [].
      assert (E : attempt parse search (Normal payload) [] = (Throw t, [])).
      { rewrite RouteFacts.attempt_unfold, Hp. reflexivity. }
      split; [exact E|]. split; [unfold searches; simpl; lia|].
      apply RouteFacts.POST_of_failure, E.
  - right. exists t, []. split; [reflexivity|]. split; [unfold searches; simpl; lia|].
    reflexivity.
Qed.

(** Every request is answered, and in one of two ways only: with
    status 200 and the data of the search, after one search was started
    and nothing was written to the console; or with status 400 and a
    message, after the thrown value was written to the console once.
    No other status is ever sent and [POST] itself never throws. *)
Theorem POST_outcomes (rq : Completion Json) :
  exists resp l,
    POST parse search rq [] = (Normal resp, l)
    /\ ((status resp = 200
         /\ (exists d req, body resp = BodyData d /\ search req = Normal d
                           /\ l = [SearchStarted req]))
        \/ (status resp = 400
            /\ (exists t l', body resp = BodyError (message_of t)
                             /\ attempt parse search rq [] = (Throw t, l')
                             /\ l = l' ++ [ConsoleError t]
                             /\ forall t', ConsoleError t' ∈ l -> t' = t))).
Proof.
  destruct (POST_cases rq) as
    [(payload & req & d & -> & Hp & Hs & ->)|(t & l & Ha & Hl & ->)].
  - eexists _, _. split; [reflexivity|]. left. split; [reflexivity|].
    exists d, req. auto.
  - eexists _, _. split; [reflexivity|]. right. split; [reflexivity|].
    exists t, l. repeat split; try assumption.
    intros t' Hin. apply elem_of_app in Hin as [Hin|Hin].
    + exfalso. destruct rq as [payload|t0].
      * rewrite RouteFacts.attempt_unfold in Ha.
        destruct (parse payload) as [req|t1].
        -- destruct (search _); [discriminate|]. injection Ha as <- <-.
           apply list_elem_of_singleton in Hin. discriminate.
        -- injection Ha as <- <-. apply elem_of_nil in Hin. exact Hin.
      * injection Ha as <- <-. apply elem_of_nil in Hin. exact Hin.
    + apply list_elem_of_singleton in Hin. congruence.
Qed.

(** The search is started exactly for a body that decodes and that the
    validator accepts, with the request the validator returned, and at
    most once. *)
Theorem search_started_iff (rq : Completion Json) (req : SearchRequest) :
  (SearchStarted req ∈ (POST parse search rq []).2
   <-> exists payload, rq = Normal payload /\ parse payload = Normal req)
  /\ searches (POST parse search rq []).2 <= 1.
Proof.
  destruct (POST_cases rq) as
    [(payload & req' & d & -> & Hp & Hs & ->)|(t & l & Ha & Hl & ->)].
  - simpl. split; [|unfold searches; simpl; lia]. rewrite list_elem_of_singleton. split.
    + intros [= ->]. eauto.
    + intros (payload' & [= <-] & Hp'). congruence.
  - simpl snd. split.
    + destruct rq as [payload|t0].
      * rewrite RouteFacts.attempt_unfold in Ha.
        destruct (parse payload) as [req'|t'] eqn:Hp.
        -- rewrite request_eta in Ha.
           destruct (search req') as [d|t'']; [discriminate|].
           injection Ha as <- <-. simpl.
           rewrite !elem_of_cons, elem_of_nil. split.
           ++ intros [[= ->]|[[=]|[]]]. eauto.
           ++ intros (payload' & [= <-] & Hp'). left. congruence.
        -- injection Ha as <- <-. simpl.
           rewrite list_elem_of_singleton. split; [discriminate|].
           intros (payload' & [= <-] & Hp'). congruence.
      * injection Ha as <- <-. simpl.
        rewrite list_elem_of_singleton. split; [discriminate|].
        intros (payload' & [=] & _).
    + unfold searches in *. rewrite List.filter_app, length_app. simpl. lia.
Qed.

End Handler.

End RouteMore.

(** ** More on the page *)

Module PageMore.
Import Platforms Page Text Counting.

(** *** Submitting *)

(** [handleSubmit] sends a request exactly when the query holds a
    character that is not white space and a platform is selected.  The
    request then carries the selected platforms and the query without
    white space at its ends, the error is cleared and the page is
    loading.  Whether or not it sends, it leaves the stored history, the
    history state and the displayed data alone. *)
Theorem handleSubmit_request (st : State) (w : Browser) :
  let out := handleSubmit st w in
  (blank (st_query st) = false /\ selectedPlatforms st <> [] ->
   exists q,
     log out.2 = log w ++ [Fetch q (selectedPlatforms st)]
     /\ q = trim (st_query st) /\ q <> ""
     /\ leading_space q = false /\ trailing_space q = false
     /\ error out.1 = None /\ loading out.1 = true)
  /\ (blank (st_query st) = true \/ selectedPlatforms st = [] ->
      log out.2 = log w /\ loading out.1 = loading st)
  /\ storage out.2 = storage w
  /\ history out.1 = history st
  /\ data out.1 = data st
  /\ st_query out.1 = st_query st
  /\ selectedPlatforms out.1 = selectedPlatforms st.
Proof.
  intros out. subst out. unfold handleSubmit.
  destruct (TextFacts.trim_trimmed (st_query st)) as (Hl & Ht & _).
  pose proof (TextFacts.trim_empty_iff (st_query st)) as Hb.
  destruct (trim (st_query st)) as [|c q] eqn:E; simpl.
  - assert (B : blank (st_query st) = true) by (apply Hb; reflexivity).
    split; [|split; [|repeat split]].
    + intros [B' _]. congruence.
    + intros _. split; reflexivity.
  - assert (B : blank (st_query st) = false).
    { destruct (blank (st_query st)); [|reflexivity].
      destruct Hb as [_ Hb]. discriminate (Hb eq_refl). }
    destruct (selectedPlatforms st) as [|p ps] eqn:Es; simpl.
    + split; [|split; [|repeat split]].
      * intros [_ H]. congruence.
      * intros _. split; reflexivity.
      * exact Es.
    + split; [|split; [|repeat split]].
      * intros _. exists (String c q). repeat split; auto; discriminate.
      * intros [B'|H]; congruence.
      * exact Es.
Qed.

(** Reusing an entry of the history fills the form with the query and
    the platforms of the entry and nothing else; submitting then sends
    a request for exactly these platforms and the trimmed query, unless
    the entry's query is blank or it has no platforms, when nothing is
    sent. *)
Theorem reuse_then_submit (entry : HistoryEntry) (st : State) (w : Browser) :
  let st1 := reuseSearch entry st in
  let out := handleSubmit st1 w in
  st_query st1 = entry_query entry
  /\ selectedPlatforms st1 = entry_platforms entry
  /\ data st1 = data st /\ history st1 = history st
  /\ error st1 = error st /\ loading st1 = loading st
  /\ log out.2
     = log w ++
       if blank (entry_query entry) then []
       else match entry_platforms entry with
            | [] => []
            | _ :: _ => [Fetch (trim (entry_query entry)) (entry_platforms entry)]
            end.
Proof.
  intros st1 out. subst out st1. repeat split.
  unfold handleSubmit. cbn [reuseSearch setSelectedPlatforms setQuery st_query
                            selectedPlatforms].
  pose proof (TextFacts.trim_empty_iff (entry_query entry)) as Hb.
  destruct (trim (entry_query entry)) as [|c q] eqn:E; cbn [falsy].
  - destruct Hb as [Hb _]. rewrite (Hb eq_refl). simpl. symmetry. apply app_nil_r.
  - destruct (blank (entry_query entry)).
    + destruct Hb as [_ Hb]. discriminate (Hb eq_refl).
    + destruct (entry_platforms entry); simpl; [symmetry; apply app_nil_r|].
      reflexivity.
Qed.

(** *** When the request settles *)

(** A search that fails (the request is rejected, the response is not
    ok, or its body does not decode) changes neither the displayed data
    nor the history, the query or the selection; it ends the loading and
    shows a message: the [error] of the response body when it has one,
    the message of the thrown [Error] when there is one, a fixed text
    otherwise. *)
Theorem failed_search_keeps_state (reply : Reply) (st : State) :
  (forall payload, reply <> Ok payload) ->
  let st' := handleSubmit_settled reply st in
  data st' = data st
  /\ history st' = history st
  /\ st_query st' = st_query st
  /\ selectedPlatforms st' = selectedPlatforms st
  /\ loading st' = false
  /\ error st'
     = Some match reply with
            | NotOk (Some e) => e
            | NotOk None => "Agent failed to scout signals."
            | FetchRejected (ThrownError _ m) => m
            | OkUndecodable (ThrownError _ m) => m
            | _ => "Unexpected failure."
            end.
Proof.
  intros Hfail st'. subst st'.
  destruct reply as [[cls m|v]|[e|]|[cls m|v]|payload]; simpl;
    try (repeat split; reflexivity).
  exfalso. exact (Hfail payload eq_refl).
Qed.

Lemma failed_search_keeps_state_witness :
  let st := setLoading true (setError None (initial [reddit; devto])) in
  let st' := handleSubmit_settled (NotOk (Some "every platform failed")) st in
  data st' = data st
  /\ history st' = history st
  /\ st_query st' = st_query st
  /\ selectedPlatforms st' = selectedPlatforms st
  /\ loading st' = false
  /\ error st' = Some "every platform failed".
Proof.
  intros st.
  apply (failed_search_keeps_state (NotOk (Some "every platform failed")) st).
  intros payload. discriminate.
Defined.

(** A search that succeeds replaces the displayed data, ends the
    loading, leaves the error, the query and the selection as they
    were, and never shortens the history by more than the entries it
    replaces: the history has at most one entry more than before. *)
Theorem successful_search_state (payload : SearchResponse) (st : State) :
  let st' := handleSubmit_settled (Ok payload) st in
  data st' = Some payload
  /\ loading st' = false
  /\ error st' = error st
  /\ st_query st' = st_query st
  /\ selectedPlatforms st' = selectedPlatforms st
  /\ length (history st') <= S (length (history st))
  /\ meta_query (meta payload) ∈ map entry_query (history st').
Proof.
  intros st'. subst st'. simpl. repeat split.
  - unfold others. pose proof (List.filter_length_le
      (fun item => negb (String.eqb (entry_query item) (meta_query (meta payload))))
      (history st)). lia.
  - left.
Qed.

Lemma others_length (q : string) (prev : list HistoryEntry) :
  NoDup (map entry_query prev) ->
  length (others q prev)
  = if bool_decide (q ∈ map entry_query prev)
    then pred (length prev) else length prev.
Proof.
  induction prev as [|e prev IH]; simpl; [reflexivity|].
  intros [Hnotin Hrest]%NoDup_cons. specialize (IH Hrest).
  destruct (String.eqb (entry_query e) q) eqn:E; simpl.
  - apply String.eqb_eq in E. subst q.
    rewrite bool_decide_true by left.
    rewrite IH, bool_decide_false by exact Hnotin. reflexivity.
  - apply String.eqb_neq in E. rewrite IH.
    destruct (decide (q ∈ map entry_query prev)) as [Hin|Hout].
    + rewrite !bool_decide_true; [|right; exact Hin|exact Hin].
      destruct prev; [inversion Hin | reflexivity].
    + rewrite !bool_decide_false; [reflexivity| |exact Hout].
      intros [?|?]%elem_of_cons; [congruence | auto].
Qed.

(** With unique queries in the history, searching again for a query
    that is in the history keeps its length (the entry moves to the
    front), and a new query makes it one longer; the history state
    itself is never cut to 8 entries. *)
Theorem history_length_after_search (payload : SearchResponse) (st : State) :
  NoDup (map entry_query (history st)) ->
  length (history (handleSubmit_settled (Ok payload) st))
  = if bool_decide (meta_query (meta payload) ∈ map entry_query (history st))
    then length (history st) else S (length (history st)).
Proof.
  intros Hunique. simpl. rewrite (others_length _ _ Hunique).
  case_bool_decide as Hin; [|reflexivity].
  destruct (history st); [inversion Hin | reflexivity].
Qed.

Lemma history_length_after_search_witness :
  let entry q := {| entry_query := q; timestamp := "2024-04-30T09:00:00.000Z";
                    entry_platforms := [reddit];
                    summary := {| meta_query := q;
                                  generatedAt := "2024-04-30T09:00:00.000Z";
                                  meta_platforms := [reddit];
                                  recommendedAngles := [];
                                  nextPrompts := [] |} |} in
  let st := setHistory (map entry ["a"; "b"; "c"; "d"; "e"; "f"; "g"; "h"])
              (initial [reddit]) in
  let payload := {| results := [];
                    meta := {| meta_query := "i";
                               generatedAt := "2024-05-01T10:00:00.000Z";
                               meta_platforms := [reddit];
                               recommendedAngles := [];
                               nextPrompts := [] |} |} in
  length (history (handleSubmit_settled (Ok payload) st)) = 9.
Proof.
  intros entry st payload.
  rewrite (history_length_after_search payload st).
  - vm_compute. reflexivity.
  - vm_compute.
    repeat (apply NoDup_cons_2;
            [by rewrite ?elem_of_cons, elem_of_nil; intuition discriminate|]).
    apply NoDup_nil_2.
Defined.

(** *** Selecting platforms *)

Lemma toggle_selected (p : PlatformId) (st : State) :
  selectedPlatforms (togglePlatform p st)
  = if bool_decide (p ∈ selectedPlatforms st)
    then List.filter (fun item => negb (bool_decide (item = p)))
           (selectedPlatforms st)
    else selectedPlatforms st ++ [p].
Proof. reflexivity. Qed.

Lemma elem_of_without (p q : PlatformId) (l : list PlatformId) :
  q ∈ List.filter (fun item => negb (bool_decide (item = p))) l
  <-> q ∈ l /\ q <> p.
Proof.
  rewrite !list_elem_of_In, List.filter_In, negb_true_iff, bool_decide_eq_false.
  reflexivity.
Qed.

Lemma without_absent (p : PlatformId) (l : list PlatformId) :
  p ∉ l -> List.filter (fun item => negb (bool_decide (item = p))) l = l.
Proof.
  induction l as [|x l IH]; simpl; [reflexivity|].
  intros Hout. rewrite bool_decide_false; simpl.
  - rewrite IH; [reflexivity|]. intros Hin. apply Hout. right. exact Hin.
  - intros ->. apply Hout. left.
Qed.

Lemma without_NoDup (p : PlatformId) (l : list PlatformId) :
  NoDup l -> NoDup (List.filter (fun item => negb (bool_decide (item = p))) l).
Proof.
  induction l as [|x l IH]; simpl; [auto|].
  intros [Hnotin Hrest]%NoDup_cons.
  destruct (negb (bool_decide (x = p))); [|auto].
  apply NoDup_cons. split; [|auto].
  rewrite elem_of_without. tauto.
Qed.

Lemma without_present (p : PlatformId) (l : list PlatformId) :
  NoDup l -> p ∈ l ->
  l ≡ₚ p :: List.filter (fun item => negb (bool_decide (item = p))) l.
Proof.
  induction l as [|x l IH]; simpl; [intros _ Hin; inversion Hin|].
  intros [Hnotin Hrest]%NoDup_cons Hin.
  destruct (decide (x = p)) as [->|Hne].
  - rewrite bool_decide_true by reflexivity. simpl.
    rewrite (without_absent p l Hnotin). reflexivity.
  - rewrite bool_decide_false by exact Hne. simpl.
    apply elem_of_cons in Hin as [->|Hin]; [congruence|].
    rewrite (IH Hrest Hin) at 1. apply Permutation_swap.
Qed.

(** Toggling a platform flips its membership in the selection and
    nobody else's, and touches nothing but the selection. *)
Theorem togglePlatform_flips (p q : PlatformId) (st : State) :
  let st' := togglePlatform p st in
  (p ∈ selectedPlatforms st' <-> p ∉ selectedPlatforms st)
  /\ (q <> p -> (q ∈ selectedPlatforms st' <-> q ∈ selectedPlatforms st))
  /\ st_query st' = st_query st /\ data st' = data st
  /\ history st' = history st /\ error st' = error st
  /\ loading st' = loading st.
Proof.
  intros st'. subst st'. rewrite toggle_selected.
  split; [|split; [|repeat split]].
  - case_bool_decide as Hin.
    + rewrite elem_of_without. tauto.
    + rewrite elem_of_app, list_elem_of_singleton. tauto.
  - intros Hne. case_bool_decide as Hin.
    + rewrite elem_of_without. tauto.
    + rewrite elem_of_app, list_elem_of_singleton. tauto.
Qed.

(** A selection without duplicates stays without duplicates, and
    toggling the same platform twice gives back the same set of
    platforms: the very same list when the platform was not selected,
    the list with the platform moved to the end when it was. *)
Theorem togglePlatform_twice (p : PlatformId) (st : State) :
  NoDup (selectedPlatforms st) ->
  let once := togglePlatform p st in
  let twice := togglePlatform p once in
  NoDup (selectedPlatforms once)
  /\ selectedPlatforms twice ≡ₚ selectedPlatforms st
  /\ (p ∉ selectedPlatforms st -> selectedPlatforms twice = selectedPlatforms st)
  /\ (p ∈ selectedPlatforms st ->
      selectedPlatforms twice
      = List.filter (fun item => negb (bool_decide (item = p)))
          (selectedPlatforms st) ++ [p]).
Proof.
  intros Hnd once twice. subst twice once. rewrite !toggle_selected.
  set (sel := selectedPlatforms st) in *.
  destruct (decide (p ∈ sel)) as [Hin|Hout].
  - rewrite (bool_decide_true (p ∈ sel)) by exact Hin.
    assert (Hgone : p ∉ List.filter (fun item => negb (bool_decide (item = p))) sel).
    { rewrite elem_of_without. tauto. }
    rewrite bool_decide_false by exact Hgone.
    split; [apply without_NoDup, Hnd|].
    split; [|split; [tauto | reflexivity]].
    rewrite (without_present p sel Hnd Hin) at 2.
    symmetry. apply Permutation_cons_append.
  - rewrite (bool_decide_false (p ∈ sel)) by exact Hout.
    assert (Hthere : p ∈ sel ++ [p]).
    { rewrite elem_of_app, list_elem_of_singleton. tauto. }
    rewrite bool_decide_true by exact Hthere.
    assert (E : List.filter (fun item => negb (bool_decide (item = p))) (sel ++ [p])
                = sel).
    { rewrite List.filter_app, (without_absent p sel Hout). simpl.
      rewrite bool_decide_true by reflexivity. simpl. apply app_nil_r. }
    rewrite E.
    split; [|split; [reflexivity | split; [reflexivity | tauto]]].
    apply NoDup_app. split; [exact Hnd|]. split; [|apply NoDup_singleton].
    intros x Hx ->%list_elem_of_singleton. exact (Hout Hx).
Qed.

Lemma togglePlatform_twice_witness :
  let st := initial [reddit; hackernews; devto] in
  let once := togglePlatform hackernews st in
  let twice := togglePlatform hackernews once in
  selectedPlatforms once = [reddit; devto]
  /\ selectedPlatforms twice = [reddit; devto; hackernews]
  /\ NoDup (selectedPlatforms once)
  /\ selectedPlatforms twice ≡ₚ selectedPlatforms st
  /\ (hackernews ∉ selectedPlatforms st ->
      selectedPlatforms twice = selectedPlatforms st)
  /\ (hackernews ∈ selectedPlatforms st ->
      selectedPlatforms twice
      = List.filter (fun item => negb (bool_decide (item = hackernews)))
          (selectedPlatforms st) ++ [hackernews]).
Proof.
  intros st once twice.
  split; [reflexivity|]. split; [reflexivity|].
  apply (togglePlatform_twice hackernews st).
  vm_compute.
  repeat (apply NoDup_cons_2;
          [by rewrite ?elem_of_cons, elem_of_nil; intuition discriminate|]).
  apply NoDup_nil_2.
Defined.

End PageMore.

(** ** More on the history and the storage *)

Module StorageFacts.
Import Platforms Page Counting.

Section Component.

Variable PLATFORMS : list PlatformId.

(** What one action adds to the log of the browser. *)
Lemma step_log (st : State) (w : Browser) (a : Action) :
  log (step (st, w) a).2
  = log w ++
    match a with
    | Submit =>
        if falsy (trim (st_query st)) then []
        else match selectedPlatforms st with
             | [] => []
             | _ :: _ => [Fetch (trim (st_query st)) (selectedPlatforms st)]
             end
    | Settled (Ok payload) =>
        [SetItem (take 8 (history (handleSubmit_settled (Ok payload) st)))]
    | _ => []
    end.
Proof.
  destruct a as [text|p| |reply|entry]; simpl; try (symmetry; apply app_nil_r).
  - unfold handleSubmit. destruct (falsy _); simpl; [symmetry; apply app_nil_r|].
    destruct (selectedPlatforms st); simpl; [symmetry; apply app_nil_r|].
    reflexivity.
  - destruct reply; simpl; try (symmetry; apply app_nil_r). reflexivity.
Qed.

Lemma mount_log (stored : option Item) :
  log (mount PLATFORMS {| storage := stored; log := [] |}).2
  = match stored with
    | Some (ItemHistory parsed) => [GetItem; SetItem []; SetItem (take 8 parsed)]
    | Some (ItemInvalid _) => [GetItem; RemoveItem; SetItem []]
    | _ => [GetItem; SetItem []]
    end.
Proof. destruct stored as [[| raw | parsed]|]; reflexivity. Qed.

Lemma count_app {A : Type} (f : A -> bool) (l k : list A) :
  length (List.filter f (l ++ k))
  = length (List.filter f l) + length (List.filter f k).
Proof. rewrite List.filter_app, length_app. reflexivity. Qed.

Lemma step_saves (st : State) (w : Browser) (a : Action) :
  saves (log (step (st, w) a).2)
  = saves (log w) + match a with Settled (Ok _) => 1 | _ => 0 end.
Proof.
  unfold saves. rewrite step_log, count_app. f_equal.
  destruct a as [text|p| |[]|entry]; try reflexivity.
  destruct (falsy _); [reflexivity|].
  destruct (selectedPlatforms st); reflexivity.
Qed.

Lemma step_removals (st : State) (w : Browser) (a : Action) :
  removals (log (step (st, w) a).2) = removals (log w).
Proof.
  unfold removals. rewrite step_log, count_app.
  destruct a as [text|p| |[]|entry]; simpl; try lia.
  destruct (falsy _); simpl; [lia|].
  destruct (selectedPlatforms st); simpl; lia.
Qed.

Lemma step_requests (st : State) (w : Browser) (a : Action) :
  requests (log (step (st, w) a).2)
  <= requests (log w) + match a with Submit => 1 | _ => 0 end.
Proof.
  unfold requests. rewrite step_log, count_app.
  destruct a as [text|p| |[]|entry]; simpl; try lia.
  destruct (falsy _); simpl; [lia|].
  destruct (selectedPlatforms st); simpl; lia.
Qed.

Lemma run_saves (sw : State * Browser) (actions : list Action) :
  saves (log (foldl step sw actions).2)
  = saves (log sw.2) + successes actions.
Proof.
  revert sw. induction actions as [|a actions IH]; intros [st w]; cbn [foldl].
  - unfold successes. simpl. lia.
  - rewrite IH, step_saves. unfold successes. cbn [List.filter snd].
    destruct a as [text|p| |[]|entry]; simpl; lia.
Qed.

Lemma run_removals (sw : State * Browser) (actions : list Action) :
  removals (log (foldl step sw actions).2) = removals (log sw.2).
Proof.
  revert sw. induction actions as [|a actions IH]; intros [st w]; cbn [foldl].
  - reflexivity.
  - rewrite IH. apply step_removals.
Qed.

Lemma run_requests (sw : State * Browser) (actions : list Action) :
  requests (log (foldl step sw actions).2)
  <= requests (log sw.2) + submits actions.
Proof.
  revert sw. induction actions as [|a actions IH]; intros [st w]; cbn [foldl].
  - lia.
  - etransitivity; [apply IH|].
    pose proof (step_requests st w a) as H.
    unfold submits. cbn [List.filter snd].
    destruct a as [text|p| |[]|entry]; simpl in *; lia.
Qed.

(** The calls to [localStorage] of a whole visit: the history is saved
    once at the mount (twice when a stored history was loaded) and once
    more for every search that comes back with data, never otherwise;
    the stored item is removed only at the mount, and only when it does
    not parse. *)
Theorem visit_storage_calls (stored : option Item) (actions : list Action) :
  let w := (visit PLATFORMS stored actions).2 in
  saves (log w)
  = match stored with Some (ItemHistory _) => 2 | _ => 1 end + successes actions
  /\ removals (log w) = match stored with Some (ItemInvalid _) => 1 | _ => 0 end.
Proof.
  unfold visit. simpl. rewrite run_saves, run_removals, mount_log.
  destruct stored as [[| raw | parsed]|]; split; reflexivity.
Qed.

(** The page sends at most one request per submission of the form, and
    none on its own: not at the mount, not when typing, toggling or
    reusing an entry. *)
Theorem visit_requests_bounded (stored : option Item) (actions : list Action) :
  requests (log (visit PLATFORMS stored actions).2) <= submits actions.
Proof.
  unfold visit. etransitivity; [apply run_requests|].
  rewrite mount_log. destruct stored as [[| raw | parsed]|]; simpl; lia.
Qed.

Lemma run_lifecycle (sw : State * Browser) (actions : list Action) :
  lifecycle sw -> lifecycle (foldl step sw actions).
Proof.
  revert sw. induction actions as [|a actions IH]; intros sw H; simpl; [exact H|].
  apply IH, PageFacts.step_lifecycle, H.
Qed.

(** Leaving and coming back: a page mounted on what a visit left in the
    storage starts with the first 8 entries of the history of that
    visit, in the same order, and leaves the storage as it found it. *)
Theorem reload_restores_history (stored : option Item) (actions : list Action) :
  let before := visit PLATFORMS stored actions in
  let after := visit PLATFORMS (storage before.2) [] in
  history after.1 = take 8 (history before.1)
  /\ storage after.2 = storage before.2
  /\ data after.1 = None.
Proof.
  intros before after.
  assert (H : lifecycle before).
  { apply run_lifecycle, PageFacts.mount_lifecycle. }
  destruct H as (_ & _ & _ & saved & Hst & Hsaved & _).
  subst after. rewrite Hst. unfold visit. simpl.
  rewrite Hsaved. split; [reflexivity|]. split; [|reflexivity].
  unfold saveHistory, setItem. simpl. rewrite take_take. reflexivity.
Qed.

End Component.

End StorageFacts.

(** ** The page and the route together *)

Module ExchangeFacts.
Import Platforms Route Page Text Counting Exchange.

Section Served.

Variable parse : Json -> Completion SearchRequest.
Variable search : SearchRequest -> Completion SearchResponse.

(** How the page reads the two kinds of answers of the route. *)
Lemma answer_cases (q : string) (ps : list PlatformId) :
  (exists req d,
      parse (request_body q ps) = Normal req /\ search req = Normal d
      /\ answer parse search q ps = Some (Ok d))
  \/ (exists t l,
        attempt parse search (Normal (request_body q ps)) [] = (Throw t, l)
        /\ answer parse search q ps = Some (NotOk (Some (message_of t)))).
Proof.
  unfold answer.
  destruct (RouteMore.POST_cases parse search (Normal (request_body q ps))) as
    [(payload & req & d & [= <-] & Hp & Hs & ->)|(t & l & Ha & _ & ->)].
  - left. exists req, d. auto.
  - right. exists t, l. auto.
Qed.

(** A submission that passes the guard, carried through the route: the
    page sends one request and stops loading; if the validator and the
    search succeed, the page shows the data of the search, no error, and
    the new entry heads the history, whose first 8 entries are stored;
    if anything is thrown on the server, the page shows the message of
    what was thrown (['Unknown error'] for a value that is not an
    [Error]) and keeps its data, its history and the storage. *)
Theorem submission_outcome (st : State) (w : Browser) :
  blank (st_query st) = false -> selectedPlatforms st <> [] ->
  let payload := request_body (trim (st_query st)) (selectedPlatforms st) in
  let out := submit_and_settle parse search st w in
  loading out.1 = false
  /\ requests (log out.2) = requests (log w) + 1
  /\ (forall req d,
        parse payload = Normal req -> search req = Normal d ->
        data out.1 = Some d /\ error out.1 = None
        /\ head (history out.1) = Some (entry_of d)
        /\ storage out.2 = Some (ItemHistory (take 8 (history out.1))))
  /\ (forall t l,
        attempt parse search (Normal payload) [] = (Throw t, l) ->
        error out.1 = Some (message_of t)
        /\ data out.1 = data st /\ history out.1 = history st
        /\ storage out.2 = storage w).
Proof.
  intros Hq Hp payload out. subst out payload.
  unfold submit_and_settle, handleSubmit.
  assert (Ht : trim (st_query st) <> "").
  { intros E. apply TextFacts.trim_empty_iff in E. congruence. }
  destruct (trim (st_query st)) as [|c q] eqn:E; [congruence|]. cbn [falsy].
  destruct (selectedPlatforms st) as [|p ps] eqn:Es; [congruence|].
  destruct (answer_cases (String c q) (p :: ps)) as
    [(req & d & Hpr & Hs & ->)|(t & l & Ha & ->)].
  - split; [reflexivity|].
    split; [unfold requests, saveHistory, setItem, fetch; simpl;
            rewrite !List.filter_app, !length_app; simpl; lia|].
    split.
    + intros req' d' Hpr' Hs'. assert (req' = req) by congruence. subst req'.
      assert (d' = d) by congruence. subst d'. repeat split.
    + intros t l Ha. exfalso.
      rewrite RouteFacts.attempt_unfold, Hpr in Ha.
      destruct req as [rq rp]. simpl in Ha. rewrite Hs in Ha. discriminate.
  - split; [reflexivity|].
    split; [unfold requests, fetch; simpl;
            rewrite !List.filter_app, !length_app; simpl; lia|].
    split.
    + intros req d Hpr Hs. exfalso.
      rewrite RouteFacts.attempt_unfold, Hpr in Ha.
      destruct req as [rq rp]. simpl in Ha. rewrite Hs in Ha. discriminate.
    + intros t' l' Ha'. assert (t' = t) by congruence. subst t'.
      repeat split.
Qed.

End Served.

Lemma submission_outcome_witness :
  let st := setQuery "  ai agents  " (initial [devto; reddit; hackernews]) in
  let w := {| storage := Some (ItemHistory []); log := [GetItem; SetItem []] |} in
  let parse := Fixtures.parse in
  let search := Fixtures.search Fixtures.registry_partial in
  let payload := request_body (trim (st_query st)) (selectedPlatforms st) in
  let out := submit_and_settle parse search st w in
  map entry_query (history out.1) = ["ai agents"]
  /\ log out.2
     = [GetItem; SetItem []; Fetch "ai agents" [devto; reddit; hackernews];
        SetItem (history out.1)]
  /\ loading out.1 = false
  /\ requests (log out.2) = requests (log w) + 1
  /\ (forall req d,
        parse payload = Normal req -> search req = Normal d ->
        data out.1 = Some d /\ error out.1 = None
        /\ head (history out.1) = Some (entry_of d)
        /\ storage out.2 = Some (ItemHistory (take 8 (history out.1))))
  /\ (forall t l,
        attempt parse search (Normal payload) [] = (Throw t, l) ->
        error out.1 = Some (message_of t)
        /\ data out.1 = data st /\ history out.1 = history st
        /\ storage out.2 = storage w).
Proof.
  intros st w parse search payload out.
  split; [vm_compute; reflexivity|].
  split; [vm_compute; reflexivity|].
  apply (submission_outcome parse search st w).
  - vm_compute. reflexivity.
  - discriminate.
Defined.

(** With every adapter down, the user reads the message of the
    [AggregationError]. *)
Example submission_failure_sample :
  let st := setQuery "ai agents" (initial [devto; reddit; hackernews]) in
  let out := submit_and_settle Fixtures.parse
               (Fixtures.search Fixtures.registry_down) st
               {| storage := None; log := [] |} in
  error out.1 = Some "every platform failed"
  /\ data out.1 = None /\ history out.1 = [] /\ loading out.1 = false.
Proof. vm_compute. repeat split. Qed.

End ExchangeFacts.
